(** * Keccak-p[1600] vector engines and their dispatcher

    A shallow embedding of
      - src/crypto/randomx/panthera/KeccakP-1600-avx2.c
      - src/crypto/randomx/panthera/KeccakP-1600-avx512.c
      - src/crypto/randomx/panthera/KeccakP-1600-optimized.c

    A [uint64_t] is a [Z] in the range [0, 2^64); the wrap-around of a left
    shift is written out.  The state is the C array [uint64_t state[25]],
    a [list Z] read and written by index.  A vector register is the list of
    its 64-bit elements, element 0 (the low quadword) first. *)

From Stdlib Require Import ZArith List Lia Bool Btauto.
Import ListNotations.

Local Open Scope Z_scope.

(** ** 64-bit words *)

Module Word64.

Definition mask64 : Z := Z.ones 64.

Definition is_u64 (x : Z) : Prop := 0 <= x < 2 ^ 64.

(** [x << n] on a [uint64_t]: the bits shifted past bit 63 are lost. *)
Definition shl (x n : Z) : Z := Z.land (Z.shiftl x n) mask64.

(** [x >> n] on a [uint64_t]. *)
Definition shr (x n : Z) : Z := Z.shiftr x n.

(** [~x] on a [uint64_t]: all 64 bits flipped. *)
Definition not (x : Z) : Z := Z.lxor x mask64.

(** The value a signed 64-bit argument has as an unsigned lane. *)
Definition of_int64 (x : Z) : Z := x mod 2 ^ 64.

End Word64.

(** ** C arrays of lanes *)

Module Mem.

(** [a[i]] *)
Definition rd (a : list Z) (i : nat) : Z := nth i a 0.

(** [a[i] = v].  Every index in the sources is a constant inside the
    array; outside it the list is left as it is. *)
Fixpoint wr (a : list Z) (i : nat) (v : Z) : list Z :=
  match a, i with
  | [], _ => []
  | _ :: t, O => v :: t
  | h :: t, S j => h :: wr t j v
  end.

(** [memcpy(dst + doff, src + soff, n * sizeof(uint64_t))] *)
Fixpoint memcpy (dst : list Z) (doff : nat) (src : list Z) (soff : nat)
         (n : nat) : list Z :=
  match n with
  | O => dst
  | S k => memcpy (wr dst doff (rd src soff)) (S doff) src (S soff) k
  end.

(** Store the elements of a vector at consecutive lanes from [off]. *)
Fixpoint store (mem : list Z) (off : nat) (v : list Z) : list Z :=
  match v with
  | [] => mem
  | e :: v' => store (wr mem off e) (S off) v'
  end.

(** Load [n] consecutive lanes from [off]. *)
Fixpoint load (mem : list Z) (off n : nat) : list Z :=
  match n with
  | O => []
  | S k => rd mem off :: load mem (S off) k
  end.

End Mem.

(** ** The vector intrinsics the engines use

    Intel's operation sections, over lists of 64-bit elements. *)

Module Intrin.

Fixpoint zip_with (f : Z -> Z -> Z) (a b : list Z) : list Z :=
  match a, b with
  | x :: a', y :: b' => f x y :: zip_with f a' b'
  | _, _ => []
  end.

(** 256-bit *)
Definition mm256_set_epi64x (e3 e2 e1 e0 : Z) : list Z := [e0; e1; e2; e3].
Definition mm256_set1_epi64x (a : Z) : list Z := [a; a; a; a].
Definition mm256_xor_si256 (a b : list Z) : list Z := zip_with Z.lxor a b.
Definition mm256_loadu_si256 (mem : list Z) (off : nat) : list Z :=
  Mem.load mem off 4.
Definition mm256_storeu_si256 (mem : list Z) (off : nat) (v : list Z)
  : list Z := Mem.store mem off v.
(** The aligned store writes the same four elements. *)
Definition mm256_store_si256 (mem : list Z) (off : nat) (v : list Z)
  : list Z := Mem.store mem off v.
(** [dst[i] = a[(imm8 >> 2i) & 3]] *)
Definition mm256_permute4x64_epi64 (a : list Z) (imm8 : Z) : list Z :=
  map (fun i => Mem.rd a (Z.to_nat (Z.land (Z.shiftr imm8 (2 * i)) 3)))
      [0; 1; 2; 3].
Definition mm256_extract_epi64 (a : list Z) (idx : nat) : Z := Mem.rd a idx.
Definition mm256_extracti128_si256 (a : list Z) (imm : nat) : list Z :=
  Mem.load a (2 * imm) 2.

(** 128-bit *)
Definition mm_xor_si128 (a b : list Z) : list Z := zip_with Z.lxor a b.
Definition mm_extract_epi64 (a : list Z) (idx : nat) : Z := Mem.rd a idx.

(** 512-bit *)
Definition mm512_set_epi64 (e7 e6 e5 e4 e3 e2 e1 e0 : Z) : list Z :=
  [e0; e1; e2; e3; e4; e5; e6; e7].
Definition mm512_set1_epi64 (a : Z) : list Z :=
  repeat (Word64.of_int64 a) 8.
Definition mm512_xor_si512 (a b : list Z) : list Z := zip_with Z.lxor a b.
Definition mm512_and_si512 (a b : list Z) : list Z := zip_with Z.land a b.
Definition mm512_loadu_si512 (mem : list Z) (off : nat) : list Z :=
  Mem.load mem off 8.
Definition mm512_storeu_si512 (mem : list Z) (off : nat) (v : list Z)
  : list Z := Mem.store mem off v.
Definition mm512_store_si512 (mem : list Z) (off : nat) (v : list Z)
  : list Z := Mem.store mem off v.
Definition mm512_extracti64x4_epi64 (a : list Z) (imm : nat) : list Z :=
  Mem.load a (4 * imm) 4.
(** [dst[i] = a[idx[i] & 7]] *)
Definition mm512_permutexvar_epi64 (idx a : list Z) : list Z :=
  map (fun i => Mem.rd a (Z.to_nat (Z.land i 7))) idx.

(** Element [i] of a masked operation: the result where bit [i] of the
    mask [k] is set, the pass-through element otherwise. *)
Fixpoint masked (k : Z) (i : Z) (src res : list Z) : list Z :=
  match src, res with
  | s :: src', r :: res' =>
      (if Z.testbit k i then r else s) :: masked k (i + 1) src' res'
  | _, _ => []
  end.
Definition mm512_mask_xor_epi64 (src : list Z) (k : Z) (a b : list Z)
  : list Z := masked k 0 src (zip_with Z.lxor a b).
(** Only the elements whose mask bit is set reach memory: element [i] of
    [a] is written at [off + i] when bit [i] of [k] is set. *)
Fixpoint mask_store (mem : list Z) (off : nat) (k : Z) (i : Z) (a : list Z)
  : list Z :=
  match a with
  | [] => mem
  | e :: a' =>
      mask_store (if Z.testbit k i then Mem.wr mem off e else mem)
                 (S off) k (i + 1) a'
  end.
Definition mm512_mask_storeu_epi64 (mem : list Z) (off : nat) (k : Z)
           (a : list Z) : list Z := mask_store mem off k 0 a.

End Intrin.

(** ** KeccakP-1600-avx2.c *)

Module AVX2.
Import Word64 Mem Intrin.

Definition KeccakF1600RoundConstants : list Z :=
  [ 0x0000000000000001; 0x0000000000008082; 0x800000000000808a; 0x8000000080008000;
    0x000000000000808b; 0x0000000080000001; 0x8000000080008081; 0x8000000000008009;
    0x000000000000008a; 0x0000000000000088; 0x0000000080008009; 0x000000008000000a;
    0x000000008000808b; 0x800000000000008b; 0x8000000000008089; 0x8000000000008003;
    0x8000000000008002; 0x8000000000000080; 0x000000000000800a; 0x800000008000000a;
    0x8000000080008081; 0x8000000000008080; 0x0000000080000001; 0x8000000080008008 ].

Definition rhotates : list Z :=
  [ 0; 1; 62; 28; 27; 36; 44; 6; 55; 20; 3; 10; 43; 25; 39; 41; 45; 15; 21;
    8; 18; 2; 61; 56; 14 ].

Definition pi_lane_map : list nat :=
  [ 0; 10; 20; 5; 15; 16; 1; 11; 21; 6; 7; 17; 2; 12; 22; 23; 8; 18; 3; 13;
    14; 24; 9; 19; 4 ]%nat.

Definition chi_row_indices : list (list nat) :=
  [ [0; 1; 2; 3; 4];
    [5; 6; 7; 8; 9];
    [10; 11; 12; 13; 14];
    [15; 16; 17; 18; 19];
    [20; 21; 22; 23; 24] ]%nat.

Definition rot_pairs : list (Z * Z) :=
  [ (0, 0); (1, 63); (62, 2); (28, 36); (27, 37);
    (36, 28); (44, 20); (6, 58); (55, 9); (20, 44);
    (3, 61); (10, 54); (43, 21); (25, 39); (39, 25);
    (41, 23); (45, 19); (15, 49); (21, 43); (8, 56);
    (18, 46); (2, 62); (61, 3); (56, 8); (14, 50) ].

(** [get_epi64] goes through the static array [extract_buffer] (four
    lanes); the array is passed in and returned. *)
Definition get_epi64 (extract_buffer : list Z) (a : list Z) (idx : nat)
  : list Z * Z :=
  let extract_buffer := mm256_store_si256 extract_buffer 0 a in
  (extract_buffer, rd extract_buffer idx).

(** The [default:] branch of [rotl64]. *)
Definition rotl64_default (x n : Z) : Z :=
  let normalized_n := Z.land n 63 in
  Z.lor (shl x normalized_n) (shr x (64 - normalized_n)).

(** The [switch] of [rotl64], case by case.  The default branch is taken
    for the amounts in 1..63 without a case of their own and for every [n]
    outside 0..63; for a non-zero multiple of 64 its right shift is by 64,
    which C leaves undefined and which is [x >> 64 = 0] here.  Every call
    in the sources passes a constant in 0..63. *)
Definition rotl64 (x n : Z) : Z :=
  match n with
  | 0 => x
  | 1 => Z.lor (shl x 1) (shr x 63)
  | 2 => Z.lor (shl x 2) (shr x 62)
  | 3 => Z.lor (shl x 3) (shr x 61)
  | 6 => Z.lor (shl x 6) (shr x 58)
  | 8 => Z.lor (shl x 8) (shr x 56)
  | 10 => Z.lor (shl x 10) (shr x 54)
  | 14 => Z.lor (shl x 14) (shr x 50)
  | 15 => Z.lor (shl x 15) (shr x 49)
  | 18 => Z.lor (shl x 18) (shr x 46)
  | 20 => Z.lor (shl x 20) (shr x 44)
  | 21 => Z.lor (shl x 21) (shr x 43)
  | 25 => Z.lor (shl x 25) (shr x 39)
  | 27 => Z.lor (shl x 27) (shr x 37)
  | 28 => Z.lor (shl x 28) (shr x 36)
  | 36 => Z.lor (shl x 36) (shr x 28)
  | 39 => Z.lor (shl x 39) (shr x 25)
  | 41 => Z.lor (shl x 41) (shr x 23)
  | 43 => Z.lor (shl x 43) (shr x 21)
  | 44 => Z.lor (shl x 44) (shr x 20)
  | 45 => Z.lor (shl x 45) (shr x 19)
  | 55 => Z.lor (shl x 55) (shr x 9)
  | 56 => Z.lor (shl x 56) (shr x 8)
  | 61 => Z.lor (shl x 61) (shr x 3)
  | 62 => Z.lor (shl x 62) (shr x 2)
  | 63 => Z.lor (shl x 63) (shr x 1)
  | _ => rotl64_default x n
  end.

Definition mm256_horizontal_xor_epi64 (v : list Z) : Z :=
  let v := mm256_xor_si256 v (mm256_permute4x64_epi64 v 0x4E) in
  let v := mm256_xor_si256 v (mm256_permute4x64_epi64 v 0xB1) in
  mm256_extract_epi64 v 0.

(** [theta_step_avx2] fills the arrays [c] and [d]; they are returned. *)
Definition theta_step_avx2 (state : list Z) : list Z * list Z :=
  let col0 := mm256_set_epi64x (rd state 20) (rd state 15) (rd state 10) (rd state 5) in
  let col0 := mm256_xor_si256 col0 (mm256_set1_epi64x (rd state 0)) in
  let col1 := mm256_set_epi64x (rd state 21) (rd state 16) (rd state 11) (rd state 6) in
  let col1 := mm256_xor_si256 col1 (mm256_set1_epi64x (rd state 1)) in
  let col2 := mm256_set_epi64x (rd state 22) (rd state 17) (rd state 12) (rd state 7) in
  let col2 := mm256_xor_si256 col2 (mm256_set1_epi64x (rd state 2)) in
  let col3 := mm256_set_epi64x (rd state 23) (rd state 18) (rd state 13) (rd state 8) in
  let col3 := mm256_xor_si256 col3 (mm256_set1_epi64x (rd state 3)) in
  let col4 := mm256_set_epi64x (rd state 24) (rd state 19) (rd state 14) (rd state 9) in
  let col4 := mm256_xor_si256 col4 (mm256_set1_epi64x (rd state 4)) in
  let c := [ mm256_horizontal_xor_epi64 col0;
             mm256_horizontal_xor_epi64 col1;
             mm256_horizontal_xor_epi64 col2;
             mm256_horizontal_xor_epi64 col3;
             mm256_horizontal_xor_epi64 col4 ] in
  let D_CALC (x1 x4 : nat) := Z.lxor (rd c x4) (rotl64 (rd c x1) 1) in
  let d := [ D_CALC 1 4; D_CALC 2 0; D_CALC 3 1; D_CALC 4 2; D_CALC 0 3 ]%nat in
  (c, d).

Definition chi_process_row (state : list Z) (row_base : nat) : list Z :=
  let a0 := rd state (row_base + 0) in
  let a1 := rd state (row_base + 1) in
  let a2 := rd state (row_base + 2) in
  let a3 := rd state (row_base + 3) in
  let a4 := rd state (row_base + 4) in
  let state := wr state (row_base + 0) (Z.lxor a0 (Z.land (not a1) a2)) in
  let state := wr state (row_base + 1) (Z.lxor a1 (Z.land (not a2) a3)) in
  let state := wr state (row_base + 2) (Z.lxor a2 (Z.land (not a3) a4)) in
  let state := wr state (row_base + 3) (Z.lxor a3 (Z.land (not a4) a0)) in
  let state := wr state (row_base + 4) (Z.lxor a4 (Z.land (not a0) a1)) in
  state.

(** *** The sections of [KeccakP1600_Round_avx2]

    The round function is one C function; its THETA, RHO and PI, CHI
    and IOTA sections are named here so that each can be stated on its
    own.  [Round_theta] returns [state] and the scratch array [temp] as
    they are before the RHO and PI section: [temp] holds the 25 lanes
    after theta, [state] has had only its lanes 16..24 updated.  [temp] is
    not initialised in C; every lane of it is written before it is read. *)

Definition THETA_TAIL (d state : list Z) (i col : nat) : list Z :=
  wr state i (Z.lxor (rd state i) (rd d col)).

Definition Round_theta (state : list Z) : list Z * list Z :=
  let temp := repeat 0 25 in
  let '(c, d) := theta_step_avx2 state in
  let lanes0 := mm256_loadu_si256 state 0 in
  let lanes1 := mm256_loadu_si256 state 4 in
  let lanes2 := mm256_loadu_si256 state 8 in
  let lanes3 := mm256_loadu_si256 state 12 in
  let lanes0 := mm256_xor_si256 lanes0 (mm256_set_epi64x (rd d 3) (rd d 2) (rd d 1) (rd d 0)) in
  let lanes1 := mm256_xor_si256 lanes1 (mm256_set_epi64x (rd d 2) (rd d 1) (rd d 0) (rd d 4)) in
  let lanes2 := mm256_xor_si256 lanes2 (mm256_set_epi64x (rd d 1) (rd d 0) (rd d 4) (rd d 3)) in
  let lanes3 := mm256_xor_si256 lanes3 (mm256_set_epi64x (rd d 0) (rd d 4) (rd d 3) (rd d 2)) in
  let state := THETA_TAIL d state 16 1 in
  let state := THETA_TAIL d state 17 2 in
  let state := THETA_TAIL d state 18 3 in
  let state := THETA_TAIL d state 19 4 in
  let state := THETA_TAIL d state 20 0 in
  let state := THETA_TAIL d state 21 1 in
  let state := THETA_TAIL d state 22 2 in
  let state := THETA_TAIL d state 23 3 in
  let state := THETA_TAIL d state 24 4 in
  let temp := mm256_storeu_si256 temp 0 lanes0 in
  let temp := mm256_storeu_si256 temp 4 lanes1 in
  let temp := mm256_storeu_si256 temp 8 lanes2 in
  let temp := mm256_storeu_si256 temp 12 lanes3 in
  let temp := memcpy temp 16 state 16 9 in
  (state, temp).

(** The arguments of one [RHO_PI_STEP(idx, src, rot)] line. *)
Definition step_args (idx src : nat) (rot : Z) : nat * nat * Z :=
  (idx, src, rot).

(** The unrolled [RHO_PI_STEP(idx, src, rot)] lines, in source order. *)
Definition RHO_PI_STEPS : list (nat * nat * Z) :=
  [ step_args 5 1 1; step_args 10 2 62; step_args 15 3 28; step_args 20 4 27;
    step_args 1 5 36; step_args 6 6 44; step_args 11 7 6; step_args 16 8 55;
    step_args 21 9 20;
    step_args 2 10 3; step_args 7 11 10; step_args 12 12 43; step_args 17 13 25;
    step_args 22 14 39;
    step_args 3 15 41; step_args 8 16 45; step_args 13 17 15; step_args 18 18 21;
    step_args 23 19 8;
    step_args 4 20 18; step_args 9 21 2; step_args 14 22 61; step_args 19 23 56;
    step_args 24 24 14 ].

(** [state[idx] = rotl64(temp[src], rot)] *)
Definition RHO_PI_STEP (temp state : list Z) (step : nat * nat * Z) : list Z :=
  let '(idx, src, rot) := step in wr state idx (rotl64 (rd temp src) rot).

(** Every lane of [state] is overwritten here. *)
Definition Round_rho_pi (state temp : list Z) : list Z :=
  let state := wr state 0 (rd temp 0) in
  fold_left (RHO_PI_STEP temp) RHO_PI_STEPS state.

Definition Round_chi (state : list Z) : list Z :=
  let state := chi_process_row state 0 in
  let state := chi_process_row state 5 in
  let state := chi_process_row state 10 in
  let state := chi_process_row state 15 in
  let state := chi_process_row state 20 in
  state.

Definition Round_iota (state : list Z) (rc : Z) : list Z :=
  wr state 0 (Z.lxor (rd state 0) rc).

Definition KeccakP1600_Round_avx2 (state : list Z) (rc : Z) : list Z :=
  let '(state, temp) := Round_theta state in
  let state := Round_rho_pi state temp in
  let state := Round_chi state in
  Round_iota state rc.

Definition KECCAK_ROUND (state : list Z) (i : nat) : list Z :=
  KeccakP1600_Round_avx2 state (rd KeccakF1600RoundConstants i).

Definition KeccakP1600_Permute_24rounds_avx2 (state : list Z) : list Z :=
  let state := KECCAK_ROUND state 0 in
  let state := KECCAK_ROUND state 1 in
  let state := KECCAK_ROUND state 2 in
  let state := KECCAK_ROUND state 3 in
  let state := KECCAK_ROUND state 4 in
  let state := KECCAK_ROUND state 5 in
  let state := KECCAK_ROUND state 6 in
  let state := KECCAK_ROUND state 7 in
  let state := KECCAK_ROUND state 8 in
  let state := KECCAK_ROUND state 9 in
  let state := KECCAK_ROUND state 10 in
  let state := KECCAK_ROUND state 11 in
  let state := KECCAK_ROUND state 12 in
  let state := KECCAK_ROUND state 13 in
  let state := KECCAK_ROUND state 14 in
  let state := KECCAK_ROUND state 15 in
  let state := KECCAK_ROUND state 16 in
  let state := KECCAK_ROUND state 17 in
  let state := KECCAK_ROUND state 18 in
  let state := KECCAK_ROUND state 19 in
  let state := KECCAK_ROUND state 20 in
  let state := KECCAK_ROUND state 21 in
  let state := KECCAK_ROUND state 22 in
  let state := KECCAK_ROUND state 23 in
  state.

(** Here the macro is [KeccakP1600_Round_avx2(state,
    KeccakF1600RoundConstants[i+12])]. *)
Definition KECCAK_ROUND_12 (state : list Z) (i : nat) : list Z :=
  KeccakP1600_Round_avx2 state (rd KeccakF1600RoundConstants (i + 12)).

Definition KeccakP1600_Permute_12rounds_avx2 (state : list Z) : list Z :=
  let state := KECCAK_ROUND_12 state 0 in
  let state := KECCAK_ROUND_12 state 1 in
  let state := KECCAK_ROUND_12 state 2 in
  let state := KECCAK_ROUND_12 state 3 in
  let state := KECCAK_ROUND_12 state 4 in
  let state := KECCAK_ROUND_12 state 5 in
  let state := KECCAK_ROUND_12 state 6 in
  let state := KECCAK_ROUND_12 state 7 in
  let state := KECCAK_ROUND_12 state 8 in
  let state := KECCAK_ROUND_12 state 9 in
  let state := KECCAK_ROUND_12 state 10 in
  let state := KECCAK_ROUND_12 state 11 in
  state.

End AVX2.

(** ** KeccakP-1600-avx512.c *)

Module AVX512.
Import Word64 Mem Intrin.

Definition KeccakF1600RoundConstants : list Z :=
  [ 0x0000000000000001; 0x0000000000008082; 0x800000000000808a; 0x8000000080008000;
    0x000000000000808b; 0x0000000080000001; 0x8000000080008081; 0x8000000000008009;
    0x000000000000008a; 0x0000000000000088; 0x0000000080008009; 0x000000008000000a;
    0x000000008000808b; 0x800000000000008b; 0x8000000000008089; 0x8000000000008003;
    0x8000000000008002; 0x8000000000000080; 0x000000000000800a; 0x800000008000000a;
    0x8000000080008081; 0x8000000000008080; 0x0000000080000001; 0x8000000080008008 ].

Definition rhotates : list Z :=
  [ 0; 1; 62; 28; 27; 36; 44; 6; 55; 20; 3; 10; 43; 25; 39; 41; 45; 15; 21;
    8; 18; 2; 61; 56; 14 ].

Definition pi_lane_map : list nat :=
  [ 0; 10; 20; 5; 15; 16; 1; 11; 21; 6; 7; 17; 2; 12; 22; 23; 8; 18; 3; 13;
    14; 24; 9; 19; 4 ]%nat.

Definition chi_mask_offsets : list nat := [1; 2; 3; 4; 0]%nat.

Definition row_indices : list (list nat) :=
  [ [0; 1; 2; 3; 4];
    [5; 6; 7; 8; 9];
    [10; 11; 12; 13; 14];
    [15; 16; 17; 18; 19];
    [20; 21; 22; 23; 24] ]%nat.

(** [extract_epi64] goes through the static array [extract_buffer] (eight
    lanes); the array is passed in and returned. *)
Definition extract_epi64 (extract_buffer : list Z) (vec : list Z) (pos : nat)
  : list Z * Z :=
  let extract_buffer := mm512_store_si512 extract_buffer 0 vec in
  (extract_buffer, rd extract_buffer pos).

Definition rotl64_default (x n : Z) : Z :=
  let normalized_n := Z.land n 63 in
  Z.lor (shl x normalized_n) (shr x (64 - normalized_n)).

Definition rotl64 (x n : Z) : Z :=
  match n with
  | 0 => x
  | 1 => Z.lor (shl x 1) (shr x 63)
  | 2 => Z.lor (shl x 2) (shr x 62)
  | 3 => Z.lor (shl x 3) (shr x 61)
  | 6 => Z.lor (shl x 6) (shr x 58)
  | 8 => Z.lor (shl x 8) (shr x 56)
  | 10 => Z.lor (shl x 10) (shr x 54)
  | 14 => Z.lor (shl x 14) (shr x 50)
  | 15 => Z.lor (shl x 15) (shr x 49)
  | 18 => Z.lor (shl x 18) (shr x 46)
  | 20 => Z.lor (shl x 20) (shr x 44)
  | 21 => Z.lor (shl x 21) (shr x 43)
  | 25 => Z.lor (shl x 25) (shr x 39)
  | 27 => Z.lor (shl x 27) (shr x 37)
  | 28 => Z.lor (shl x 28) (shr x 36)
  | 36 => Z.lor (shl x 36) (shr x 28)
  | 39 => Z.lor (shl x 39) (shr x 25)
  | 41 => Z.lor (shl x 41) (shr x 23)
  | 43 => Z.lor (shl x 43) (shr x 21)
  | 44 => Z.lor (shl x 44) (shr x 20)
  | 45 => Z.lor (shl x 45) (shr x 19)
  | 55 => Z.lor (shl x 55) (shr x 9)
  | 56 => Z.lor (shl x 56) (shr x 8)
  | 61 => Z.lor (shl x 61) (shr x 3)
  | 62 => Z.lor (shl x 62) (shr x 2)
  | 63 => Z.lor (shl x 63) (shr x 1)
  | _ => rotl64_default x n
  end.

Definition mm512_horizontal_xor_epi64 (v : list Z) : Z :=
  let low256 := mm512_extracti64x4_epi64 v 0 in
  let high256 := mm512_extracti64x4_epi64 v 1 in
  let reduced := mm256_xor_si256 low256 high256 in
  let low128 := mm256_extracti128_si256 reduced 0 in
  let high128 := mm256_extracti128_si256 reduced 1 in
  let result := mm_xor_si128 low128 high128 in
  let val := Z.lxor (mm_extract_epi64 result 0) (mm_extract_epi64 result 1) in
  val.

Definition theta_step_avx512 (state : list Z) : list Z * list Z :=
  let col0 := mm512_set_epi64 0 0 0 (rd state 20) (rd state 15) (rd state 10) (rd state 5) (rd state 0) in
  let col1 := mm512_set_epi64 0 0 0 (rd state 21) (rd state 16) (rd state 11) (rd state 6) (rd state 1) in
  let col2 := mm512_set_epi64 0 0 0 (rd state 22) (rd state 17) (rd state 12) (rd state 7) (rd state 2) in
  let col3 := mm512_set_epi64 0 0 0 (rd state 23) (rd state 18) (rd state 13) (rd state 8) (rd state 3) in
  let col4 := mm512_set_epi64 0 0 0 (rd state 24) (rd state 19) (rd state 14) (rd state 9) (rd state 4) in
  let c := [ mm512_horizontal_xor_epi64 col0;
             mm512_horizontal_xor_epi64 col1;
             mm512_horizontal_xor_epi64 col2;
             mm512_horizontal_xor_epi64 col3;
             mm512_horizontal_xor_epi64 col4 ] in
  let D_CALC (x1 x4 : nat) := Z.lxor (rd c x4) (rotl64 (rd c x1) 1) in
  let d := [ D_CALC 1 4; D_CALC 2 0; D_CALC 3 1; D_CALC 4 2; D_CALC 0 3 ]%nat in
  (c, d).

Definition chi_process_row_avx512 (state : list Z) (row_base : nat) : list Z :=
  let row := mm512_set_epi64 0 0 0 (rd state (row_base + 4)) (rd state (row_base + 3))
               (rd state (row_base + 2)) (rd state (row_base + 1)) (rd state row_base) in
  let row_shifted1 :=
    mm512_permutexvar_epi64 (mm512_set_epi64 0 0 0 0 3 2 1 5) row in
  let row_shifted2 :=
    mm512_permutexvar_epi64 (mm512_set_epi64 0 0 0 0 4 3 2 1) row in
  let full_mask := 0x1F in
  let not_row := mm512_xor_si512 row_shifted1 (mm512_set1_epi64 (-1)) in
  let chi_result := mm512_and_si512 not_row row_shifted2 in
  let row := mm512_mask_xor_epi64 row full_mask row chi_result in
  mm512_mask_storeu_epi64 state row_base full_mask row.

(** *** The sections of [KeccakP1600_Round_avx512] *)

Definition APPLY_D (d state : list Z) (i col : nat) : list Z :=
  wr state i (Z.lxor (rd state i) (rd d col)).

Definition Round_theta (state : list Z) : list Z * list Z :=
  let temp := repeat 0 25 in
  let '(c, d) := theta_step_avx512 state in
  let s0 := mm512_loadu_si512 state 0 in
  let s1 := mm512_loadu_si512 state 8 in
  let d_broadcast :=
    mm512_set_epi64 (rd d 3) (rd d 2) (rd d 1) (rd d 0) (rd d 4) (rd d 3) (rd d 2) (rd d 1) in
  let s0 := mm512_xor_si512 s0 d_broadcast in
  let d_broadcast :=
    mm512_set_epi64 (rd d 2) (rd d 1) (rd d 0) (rd d 4) (rd d 3) (rd d 2) (rd d 1) (rd d 0) in
  let s1 := mm512_xor_si512 s1 d_broadcast in
  let state := APPLY_D d state 16 1 in
  let state := APPLY_D d state 17 2 in
  let state := APPLY_D d state 18 3 in
  let state := APPLY_D d state 19 4 in
  let state := APPLY_D d state 20 0 in
  let state := APPLY_D d state 21 1 in
  let state := APPLY_D d state 22 2 in
  let state := APPLY_D d state 23 3 in
  let state := APPLY_D d state 24 4 in
  let temp := mm512_storeu_si512 temp 0 s0 in
  let temp := mm512_storeu_si512 temp 8 s1 in
  let temp := memcpy temp 16 state 16 9 in
  (state, temp).

(** The arguments of one [RHO_PI(dest, src, rot)] line. *)
Definition step_args (dest src : nat) (rot : Z) : nat * nat * Z :=
  (dest, src, rot).

(** The unrolled [RHO_PI(dest, src, rot)] lines, in source order, with
    the destination written [r*5+c] as in the source. *)
Definition RHO_PI_STEPS : list (nat * nat * Z) :=
  [ step_args (1*5+0) 1 1; step_args (2*5+0) 2 62; step_args (3*5+0) 3 28;
    step_args (4*5+0) 4 27;
    step_args (0*5+1) 5 36; step_args (1*5+1) 6 44; step_args (2*5+1) 7 6;
    step_args (3*5+1) 8 55; step_args (4*5+1) 9 20;
    step_args (0*5+2) 10 3; step_args (1*5+2) 11 10; step_args (2*5+2) 12 43;
    step_args (3*5+2) 13 25; step_args (4*5+2) 14 39;
    step_args (0*5+3) 15 41; step_args (1*5+3) 16 45; step_args (2*5+3) 17 15;
    step_args (3*5+3) 18 21; step_args (4*5+3) 19 8;
    step_args (0*5+4) 20 18; step_args (1*5+4) 21 2; step_args (2*5+4) 22 61;
    step_args (3*5+4) 23 56; step_args (4*5+4) 24 14 ].

(** [state[dest] = rotl64(temp[src], rot)] *)
Definition RHO_PI (temp state : list Z) (step : nat * nat * Z) : list Z :=
  let '(dest, src, rot) := step in wr state dest (rotl64 (rd temp src) rot).

Definition Round_rho_pi (state temp : list Z) : list Z :=
  let state := wr state 0 (rd temp 0) in
  fold_left (RHO_PI temp) RHO_PI_STEPS state.

Definition Round_chi (state : list Z) : list Z :=
  let state := chi_process_row_avx512 state 0 in
  let state := chi_process_row_avx512 state 5 in
  let state := chi_process_row_avx512 state 10 in
  let state := chi_process_row_avx512 state 15 in
  let state := chi_process_row_avx512 state 20 in
  state.

Definition Round_iota (state : list Z) (rc : Z) : list Z :=
  wr state 0 (Z.lxor (rd state 0) rc).

Definition KeccakP1600_Round_avx512 (state : list Z) (rc : Z) : list Z :=
  let '(state, temp) := Round_theta state in
  let state := Round_rho_pi state temp in
  let state := Round_chi state in
  Round_iota state rc.

Definition KECCAK_ROUND (state : list Z) (i : nat) : list Z :=
  KeccakP1600_Round_avx512 state (rd KeccakF1600RoundConstants i).

Definition KeccakP1600_Permute_24rounds_avx512 (state : list Z) : list Z :=
  let state := KECCAK_ROUND state 0 in
  let state := KECCAK_ROUND state 1 in
  let state := KECCAK_ROUND state 2 in
  let state := KECCAK_ROUND state 3 in
  let state := KECCAK_ROUND state 4 in
  let state := KECCAK_ROUND state 5 in
  let state := KECCAK_ROUND state 6 in
  let state := KECCAK_ROUND state 7 in
  let state := KECCAK_ROUND state 8 in
  let state := KECCAK_ROUND state 9 in
  let state := KECCAK_ROUND state 10 in
  let state := KECCAK_ROUND state 11 in
  let state := KECCAK_ROUND state 12 in
  let state := KECCAK_ROUND state 13 in
  let state := KECCAK_ROUND state 14 in
  let state := KECCAK_ROUND state 15 in
  let state := KECCAK_ROUND state 16 in
  let state := KECCAK_ROUND state 17 in
  let state := KECCAK_ROUND state 18 in
  let state := KECCAK_ROUND state 19 in
  let state := KECCAK_ROUND state 20 in
  let state := KECCAK_ROUND state 21 in
  let state := KECCAK_ROUND state 22 in
  let state := KECCAK_ROUND state 23 in
  state.

Definition KeccakP1600_Permute_12rounds_avx512 (state : list Z) : list Z :=
  let state := KECCAK_ROUND state 12 in
  let state := KECCAK_ROUND state 13 in
  let state := KECCAK_ROUND state 14 in
  let state := KECCAK_ROUND state 15 in
  let state := KECCAK_ROUND state 16 in
  let state := KECCAK_ROUND state 17 in
  let state := KECCAK_ROUND state 18 in
  let state := KECCAK_ROUND state 19 in
  let state := KECCAK_ROUND state 20 in
  let state := KECCAK_ROUND state 21 in
  let state := KECCAK_ROUND state 22 in
  let state := KECCAK_ROUND state 23 in
  state.

End AVX512.

(** ** The round as the specification words it

    These definitions follow the text of the specification (section 4.1),
    not the vector code; the engines are compared with them. *)

Module Spec.
Import Mem.

(** The 25 lane indices, [y*5+x] for lane (x,y). *)
Definition lanes : list nat := seq 0 25.

Definition lane (x y : nat) : nat := (y * 5 + x)%nat.

(** Rotate-left of a 64-bit value by [n] bits, [0 <= n < 64]. *)
Definition rotl (x n : Z) : Z := (x * 2 ^ n) mod 2 ^ 64 + x / 2 ^ (64 - n).

(** [C[x]]: XOR of the five lanes of column [x]. *)
Definition C (a : list Z) (x : nat) : Z :=
  Z.lxor (rd a x)
    (Z.lxor (rd a (x + 5))
       (Z.lxor (rd a (x + 10)) (Z.lxor (rd a (x + 15)) (rd a (x + 20))))).

(** [D[x] = C[(x+4) mod 5] XOR rotate-left(C[(x+1) mod 5], 1)] *)
Definition D (a : list Z) (x : nat) : Z :=
  Z.lxor (C a ((x + 4) mod 5)) (rotl (C a ((x + 1) mod 5)) 1).

Definition theta (a : list Z) : list Z :=
  map (fun i => Z.lxor (rd a i) (D a (i mod 5))) lanes.

(** Rho: each lane rotated left by its offset. *)
Definition rho (offsets : list Z) (a : list Z) : list Z :=
  map (fun i => rotl (rd a i) (rd offsets i)) lanes.

(** The Keccak pi relabeling: source lane (x,y) moves to destination
    lane (x' = y, y' = (2x+3y) mod 5). *)
Definition pi_dest (i : nat) : nat :=
  let x := (i mod 5)%nat in
  let y := (i / 5)%nat in
  lane y ((2 * x + 3 * y) mod 5).

Definition pi (a : list Z) : list Z :=
  fold_left (fun out i => wr out (pi_dest i) (rd a i)) lanes (repeat 0 25).

(** Chi on one lane position: lane(x,y) XOR (NOT lane(x+1,y) AND
    lane(x+2,y)), indices mod 5, all read from the state before chi. *)
Definition chi_lane (a : list Z) (i : nat) : Z :=
  let x := (i mod 5)%nat in
  let y := (i / 5)%nat in
  Z.lxor (rd a (lane x y))
    (Z.land (Z.lxor (rd a (lane ((x + 1) mod 5) y)) (Z.ones 64))
            (rd a (lane ((x + 2) mod 5) y))).

Definition chi (a : list Z) : list Z := map (chi_lane a) lanes.

Definition iota (rc : Z) (a : list Z) : list Z :=
  wr a 0 (Z.lxor (rd a 0) rc).

Definition round (offsets : list Z) (a : list Z) (rc : Z) : list Z :=
  iota rc (chi (pi (rho offsets (theta a)))).

(** Modelled from the spec: the reference engine
    [KeccakP1600_Permute_24rounds_reference] (KeccakP-1600-reference.c
    is only declared in the sources): the rounds of section 4.1 applied
    for the given round constants in order. *)
Definition permute_reference (offsets rcs : list Z) (a : list Z) : list Z :=
  fold_left (round offsets) rcs a.

(** Modelled from the spec: the published Keccak-p[1600,24] output for
    the all-zero state (KeccakF-1600-IntermediateValues.txt of the Keccak
    reference package), as 25 lanes. *)
Definition zero_state_vector : list Z :=
  [ 0xF1258F7940E1DDE7; 0x84D5CCF933C0478A; 0xD598261EA65AA9EE; 0xBD1547306F80494D;
    0x8B284E056253D057; 0xFF97A42D7F8E6FD4; 0x90FEE5A0A44647C4; 0x8C5BDA0CD6192E76;
    0xAD30A6F71B19059C; 0x30935AB7D08FFC64; 0xEB5AA93F2317D635; 0xA9A6E6260D712103;
    0x81A57C16DBCF555F; 0x43B831CD0347C826; 0x01F22F1A11A5569F; 0x05E5635A21D9AE61;
    0x64BEFEF28CC970F2; 0x613670957BC46611; 0xB87C5A554FD00ECB; 0x8C3EE88A1CCF32C8;
    0x940C7922AE3A2614; 0x1841F924A2C509E4; 0x16F53526E70465C2; 0x75F644E97F30A13B;
    0xEAF1FF7B5CECA249 ].

End Spec.

(** ** KeccakP-1600-optimized.c *)

Module Dispatch.

(** The three functions [permute_fn] can point to. *)
Inductive engine : Type :=
| Reference   (* &KeccakP1600_Permute_24rounds_reference *)
| Avx2        (* &KeccakP1600_Permute_24rounds_avx2 *)
| Avx512.     (* &KeccakP1600_Permute_24rounds_avx512 *)

(** The process-wide state the file touches: the static pointer
    [permute_fn] ([None] is [NULL]) and, to observe probing, the number
    of [cpuid] queries made so far. *)
Record world : Type := mkWorld {
  permute_fn : option engine;
  cpuid_calls : nat
}.

(** [static void (*permute_fn)(void *) = NULL;] *)
Definition initial : world := mkWorld None 0.

Section Build.

(** [defined(__AVX2__)] and the four-macro AVX-512 condition. *)
Variable AVX2_defined : bool.
Variable AVX512_defined : bool.

(** EBX of [cpuid] leaf 7, subleaf 0, on the running processor. *)
Variable ebx : Z.

(** The reference engine is only declared in the sources. *)
Variable KeccakP1600_Permute_24rounds_reference : list Z -> list Z.

Definition cpuid (w : world) : world :=
  mkWorld (permute_fn w) (S (cpuid_calls w)).

(** [return (ebx & (1 << 5)) != 0;] *)
Definition supportsAVX2 (w : world) : world * bool :=
  (cpuid w, negb (Z.land ebx (Z.shiftl 1 5) =? 0)).

(** [return ((ebx & avx512_mask) == avx512_mask);] *)
Definition supportsAVX512 (w : world) : world * bool :=
  let avx512_mask :=
    Z.lor (Z.lor (Z.lor (Z.shiftl 1 16) (Z.shiftl 1 17)) (Z.shiftl 1 30))
          (Z.shiftl 1 31) in
  (cpuid w, Z.land ebx avx512_mask =? avx512_mask).

Definition bind (w : world) (e : engine) : world :=
  mkWorld (Some e) (cpuid_calls w).

Definition init_permute_function (w : world) : world :=
  match permute_fn w with
  | Some _ => w
  | None =>
      let w := bind w Reference in
      let w :=
        if AVX2_defined then
          let '(w, r) := supportsAVX2 w in
          if r then bind w Avx2 else w
        else w in
      let w :=
        if AVX512_defined then
          let '(w, r) := supportsAVX512 w in
          if r then bind w Avx512 else w
        else w in
      w
  end.

(** The call through a function pointer. *)
Definition call (e : engine) (state : list Z) : list Z :=
  match e with
  | Reference => KeccakP1600_Permute_24rounds_reference state
  | Avx2 => AVX2.KeccakP1600_Permute_24rounds_avx2 state
  | Avx512 => AVX512.KeccakP1600_Permute_24rounds_avx512 state
  end.

(** [permute_fn(state)]: there is no result when the pointer is
    [NULL]. *)
Definition KeccakP1600_Permute_24rounds (w : world) (state : list Z)
  : world * option (list Z) :=
  let w :=
    match permute_fn w with
    | None => init_permute_function w
    | Some _ => w
    end in
  (w, option_map (fun e => call e state) (permute_fn w)).

(** A process: the entry point invoked on one state after another. *)
Fixpoint invocations (w : world) (states : list (list Z))
  : world * list (option (list Z)) :=
  match states with
  | [] => (w, [])
  | st :: rest =>
      let '(w, out) := KeccakP1600_Permute_24rounds w st in
      let '(w, outs) := invocations w rest in
      (w, out :: outs)
  end.

(** The most capable supported engine: AVX-512 if built and reported,
    else AVX2 if built and reported, else the reference engine. *)
Definition most_capable : engine :=
  if AVX512_defined && snd (supportsAVX512 initial) then Avx512
  else if AVX2_defined && snd (supportsAVX2 initial) then Avx2
  else Reference.

(** The number of capability queries one resolution makes. *)
Definition probes : nat :=
  ((if AVX2_defined then 1 else 0) + (if AVX512_defined then 1 else 0))%nat.

End Build.

End Dispatch.

(** ** Overlapping invocations of the entry point

    [KeccakP-1600-optimized.c] has no lock, atomic or one-time guard
    around [permute_fn].  Here each invocation is a thread that executes
    the statements of [KeccakP1600_Permute_24rounds] and
    [init_permute_function] one at a time, on a state buffer of its own;
    a schedule says which thread executes its next statement.  Loads and
    stores of [permute_fn] take effect at once and in program order. *)

Module Threads.
Import Dispatch.

(** Where an invocation stands: the statement it executes next. *)
Inductive pc : Type :=
| AtEntry       (* if (permute_fn == NULL)                      line 55 *)
| InitTest      (* if (permute_fn != NULL) return;              line 30 *)
| InitDefault   (* permute_fn = &..._reference;                 line 35 *)
| InitAVX2      (* if (supportsAVX2()) permute_fn = &..._avx2;  line 39 *)
| InitAVX512    (* if (supportsAVX512()) permute_fn = ...;      line 46 *)
| AtCall        (* permute_fn(state);                           line 59 *)
| Done (called : option engine).  (* returned; None: it called NULL *)

Record thread : Type := mkThread {
  at_pc : pc;
  buffer : list Z
}.

Record config : Type := mkConfig {
  shared : world;
  threads : list thread
}.

Fixpoint set_thread (ts : list thread) (t : nat) (th : thread) : list thread :=
  match ts, t with
  | [], _ => []
  | _ :: rest, O => th :: rest
  | x :: rest, S t' => x :: set_thread rest t' th
  end.

(** An invocation that has not executed a statement yet, or has
    returned. *)
Definition idle (th : thread) : bool :=
  match at_pc th with
  | AtEntry | Done _ => true
  | _ => false
  end.

(** Every thread but thread [t] is idle. *)
Fixpoint others_idle (ts : list thread) (t : nat) : bool :=
  match ts with
  | [] => true
  | x :: rest =>
      match t with
      | O => forallb idle rest
      | S t' => idle x && others_idle rest t'
      end
  end.

Section Build.

Variable AVX2_defined : bool.
Variable AVX512_defined : bool.
Variable ebx : Z.
Variable KeccakP1600_Permute_24rounds_reference : list Z -> list Z.

(** The next statement of one invocation, on the shared binding. *)
Definition step_thread (w : world) (th : thread) : world * thread :=
  match at_pc th with
  | AtEntry =>
      (w, mkThread (match permute_fn w with
                    | None => InitTest
                    | Some _ => AtCall
                    end) (buffer th))
  | InitTest =>
      (w, mkThread (match permute_fn w with
                    | Some _ => AtCall
                    | None => InitDefault
                    end) (buffer th))
  | InitDefault => (bind w Reference, mkThread InitAVX2 (buffer th))
  | InitAVX2 =>
      (if AVX2_defined then
         let '(w, r) := supportsAVX2 ebx w in
         if r then bind w Avx2 else w
       else w,
       mkThread InitAVX512 (buffer th))
  | InitAVX512 =>
      (if AVX512_defined then
         let '(w, r) := supportsAVX512 ebx w in
         if r then bind w Avx512 else w
       else w,
       mkThread AtCall (buffer th))
  | AtCall =>
      (w, match permute_fn w with
          | Some e =>
              mkThread (Done (Some e))
                (call KeccakP1600_Permute_24rounds_reference e (buffer th))
          | None => mkThread (Done None) (buffer th)
          end)
  | Done _ => (w, th)
  end.

(** Thread [t] executes its next statement. *)
Definition step (c : config) (t : nat) : config :=
  match nth_error (threads c) t with
  | None => c
  | Some th =>
      let '(w, th') := step_thread (shared c) th in
      mkConfig w (set_thread (threads c) t th')
  end.

Definition run (schedule : list nat) (c : config) : config :=
  fold_left step schedule c.

(** [n] statements of one invocation, nothing in between. *)
Fixpoint run_thread (n : nat) (w : world) (th : thread) : world * thread :=
  match n with
  | O => (w, th)
  | S n' => let '(w', th') := step_thread w th in run_thread n' w' th'
  end.

(** No statement of the schedule is executed while another invocation
    is between its first statement and its return. *)
Fixpoint no_overlap (schedule : list nat) (c : config) : bool :=
  match schedule with
  | [] => true
  | t :: rest => others_idle (threads c) t && no_overlap rest (step c t)
  end.

End Build.

(** One invocation per buffer, none has executed a statement. *)
Definition start (buffers : list (list Z)) : config :=
  mkConfig initial (map (mkThread AtEntry) buffers).

(** Thread 0 stores the default binding; thread 1 then enters, finds the
    binding set and calls it; thread 0 finishes the initialisation. *)
Definition overlapping_schedule : list nat := [0; 0; 0; 1; 1; 0; 0; 0]%nat.

(** Threads 0 .. n-1 one after another, six statements each: an
    invocation has returned after at most six, and executes nothing
    more. *)
Definition one_after_another (n : nat) : list nat :=
  flat_map (fun t => repeat t 6) (seq 0 n).

End Threads.

(** ** Test states *)

Definition zero_state : list Z := repeat 0 25.

(** The state with lane [i] set to [v] and every other lane zero. *)
Definition single_lane (i : nat) (v : Z) : list Z := Mem.wr zero_state i v.

(** A well-formed state: 25 lanes, each a 64-bit value. *)
Definition wf_state (s : list Z) : Prop :=
  length s = 25%nat /\ Forall Word64.is_u64 s.

(** ** Lane maps read off the sources *)

(** Destination lane [j] of the transposition (x,y) -> (y,x). *)
Definition transpose (j : nat) : nat := (5 * (j mod 5) + j / 5)%nat.

(** The destination the unrolled steps give scratch lane [i], read off
    the step table. *)
Definition step_dest (steps : list (nat * nat * Z)) (i : nat) : option nat :=
  option_map (fun '(idx, _, _) => idx)
             (find (fun '(_, src, _) => Nat.eqb src i) steps).

(** Two states for the AVX-512 engine: row 2 all ones, and the same with
    lanes 0 and 5 all ones as well. *)
Definition ones_row2 : list Z :=
  [ 0; 0; 0; 0; 0;  0; 0; 0; 0; 0;
    0xFFFFFFFFFFFFFFFF; 0xFFFFFFFFFFFFFFFF; 0xFFFFFFFFFFFFFFFF;
    0xFFFFFFFFFFFFFFFF; 0xFFFFFFFFFFFFFFFF;
    0; 0; 0; 0; 0;  0; 0; 0; 0; 0 ].

Definition ones_row2_col0 : list Z :=
  Mem.wr (Mem.wr ones_row2 0 0xFFFFFFFFFFFFFFFF) 5 0xFFFFFFFFFFFFFFFF.

(** A state the THETA section of the AVX-512 round turns into
    [single_lane 1 1]. *)
Definition theta512_to_lane1 : list Z :=
  [ 2; 3; 1; 1; 0;  2; 2; 1; 0; 2;  2; 1; 1; 0; 2;  2; 2; 2; 1; 1;
    0; 2; 2; 1; 1 ].

(** Lanes 10 and 15 set to 1: the column sums are zero, theta changes
    nothing in either engine. *)
Definition lanes_10_15 : list Z := Mem.wr (single_lane 10 1) 15 1.

(** The column whose D value the AVX-512 round XORs into each lane: the
    elements of its two [d_broadcast] vectors (lanes 0..7 and 8..15) and
    the nine [APPLY_D] lines. *)
Definition avx512_d_columns : list nat :=
  [ 1; 2; 3; 4; 0; 1; 2; 3;
    0; 1; 2; 3; 4; 0; 1; 2;
    1; 2; 3; 4; 0; 1; 2; 3; 4 ]%nat.

(** ** Theta of the AVX2 file, in two steps *)

(** The D values as [theta_step_avx2] derives them from the column sums. *)
Definition theta_d (c : list Z) : list Z :=
  [ Z.lxor (Mem.rd c 4) (AVX2.rotl64 (Mem.rd c 1) 1);
    Z.lxor (Mem.rd c 0) (AVX2.rotl64 (Mem.rd c 2) 1);
    Z.lxor (Mem.rd c 1) (AVX2.rotl64 (Mem.rd c 3) 1);
    Z.lxor (Mem.rd c 2) (AVX2.rotl64 (Mem.rd c 4) 1);
    Z.lxor (Mem.rd c 3) (AVX2.rotl64 (Mem.rd c 0) 1) ].

(** XOR of [d[x]] into every lane of column [x]. *)
Definition theta_apply (d s : list Z) : list Z :=
  map (fun j => Z.lxor (Mem.rd s j) (Mem.rd d (j mod 5))) Spec.lanes.

(** ** Definitions for the further properties *)

(** A state with 25 different 64-bit lanes. *)
Definition sample_state : list Z :=
  map (fun i => (Z.of_nat (i + 1) * 0x9E3779B97F4A7C15) mod 2 ^ 64) Spec.lanes.

(** The column sum [theta_step_avx2] computes: the four lanes of column
    [x] in rows 1..4. *)
Definition column_rows_1_4 (state : list Z) (x : nat) : Z :=
  Z.lxor (Z.lxor (Mem.rd state (x + 5)) (Mem.rd state (x + 10)))
         (Z.lxor (Mem.rd state (x + 15)) (Mem.rd state (x + 20))).

(** The chi row formula of the AVX2 file at lane offset [x] of a row. *)
Definition chi_row_lane (state : list Z) (row_base x : nat) : Z :=
  Z.lxor (Mem.rd state (row_base + x))
    (Z.land (Word64.not (Mem.rd state (row_base + (x + 1) mod 5)))
            (Mem.rd state (row_base + (x + 2) mod 5))).

(** What [chi_process_row_avx512] leaves in a row: lane 0 XOR lane 1,
    then lane x OR lane x+1 for x = 1, 2, 3, and lane 4 as it was. *)
Definition chi512_row_lane (state : list Z) (row_base x : nat) : Z :=
  match x with
  | 0%nat => Z.lxor (Mem.rd state row_base) (Mem.rd state (row_base + 1))
  | 4%nat => Mem.rd state (row_base + 4)
  | _ => Z.lor (Mem.rd state (row_base + x)) (Mem.rd state (row_base + x + 1))
  end.

(** XOR of [d[avx512_d_columns[j]]] into lane [j]. *)
Definition theta512_apply (d s : list Z) : list Z :=
  map (fun j => Z.lxor (Mem.rd s j) (Mem.rd d (nth j avx512_d_columns 0%nat)))
      Spec.lanes.

(** ** Two overlapping invocations

    Modelled from the spec: the reference engine, on the tables of the
    vector engines. *)
Definition reference_engine : list Z -> list Z :=
  Spec.permute_reference AVX2.rhotates AVX2.KeccakF1600RoundConstants.

(** Two invocations on the zero state, on a processor that reports AVX2
    and AVX-512, after the first [k] statements of
    [Threads.overlapping_schedule]. *)
Definition overlap_run (k : nat) : Threads.config :=
  Threads.run true true 0xC0030020 reference_engine
    (firstn k Threads.overlapping_schedule)
    (Threads.start [zero_state; zero_state]).

(** * Properties *)

(** ** Tactics *)

(** A list of 25 lanes, lane by lane. *)
Ltac destruct_lanes s H :=
  do 25 (destruct s as [| ? s]; [discriminate H |]);
  destruct s; [clear H | discriminate H].

(** Lane-wise and bit-wise equality of expressions built from XOR, AND
    and OR. *)
Ltac z_bitwise :=
  apply Z.bits_inj'; intros ?i ?Hi;
  repeat rewrite ?Z.lxor_spec, ?Z.land_spec, ?Z.lor_spec, ?Z.bits_0;
  btauto.

Ltac lanewise tac :=
  repeat (apply (f_equal2 (@cons Z)); [tac |]); try reflexivity.

(** Case analysis on the lane index against the five lanes of a row. *)
Ltac row_case b k :=
  subst;
  replace ((b <=? b + k)%nat) with true by (symmetry; apply Nat.leb_le; lia);
  replace ((b + k <? b + 5)%nat) with true by (symmetry; apply Nat.ltb_lt; lia);
  replace (b + k - b)%nat with k by lia;
  cbn [andb Nat.add Nat.modulo Nat.divmod fst snd Nat.sub];
  rewrite ?Nat.add_0_r; reflexivity.

Ltac row_cases b i :=
  destruct (Nat.eqb_spec i (b + 4)); [row_case b 4%nat |];
  destruct (Nat.eqb_spec i (b + 3)); [row_case b 3%nat |];
  destruct (Nat.eqb_spec i (b + 2)); [row_case b 2%nat |];
  destruct (Nat.eqb_spec i (b + 1)); [row_case b 1%nat |];
  destruct (Nat.eqb_spec i (b + 0));
    [subst; rewrite !Nat.add_0_r;
     replace ((b <=? b)%nat) with true by (symmetry; apply Nat.leb_le; lia);
     replace ((b <? b + 5)%nat) with true by (symmetry; apply Nat.ltb_lt; lia);
     replace (b - b)%nat with 0%nat by lia;
     cbn [andb Nat.add Nat.modulo Nat.divmod fst snd Nat.sub];
     rewrite ?Nat.add_0_r; reflexivity |];
  destruct (Nat.leb_spec b i); destruct (Nat.ltb_spec i (b + 5));
    cbn [andb]; try reflexivity; lia.

(** ** Both source files carry the same tables and the same [rotl64] *)

Lemma tables_agree :
  AVX512.KeccakF1600RoundConstants = AVX2.KeccakF1600RoundConstants /\
  AVX512.rhotates = AVX2.rhotates /\
  AVX512.pi_lane_map = AVX2.pi_lane_map /\
  AVX512.RHO_PI_STEPS = AVX2.RHO_PI_STEPS.
Proof. repeat split; reflexivity. Qed.

Lemma rotl64_agree (x n : Z) : AVX512.rotl64 x n = AVX2.rotl64 x n.
Proof. reflexivity. Qed.

(** The table [pi_lane_map] is the Keccak pi relabeling of the
    specification: lane (x,y) goes to (y, (2x+3y) mod 5). *)
Lemma pi_lane_map_is_pi :
  map Spec.pi_dest Spec.lanes = AVX2.pi_lane_map.
Proof. reflexivity. Qed.

(** The spec-worded round, run for the 24 round constants of the
    sources with the offsets of [rhotates], reproduces the published
    vector: the model of the reference engine and the vector agree. *)
Lemma reference_zero_state_vector :
  Spec.permute_reference AVX2.rhotates AVX2.KeccakF1600RoundConstants zero_state
  = Spec.zero_state_vector.
Proof. vm_compute. reflexivity. Qed.

(** ** 64-bit values and rotations *)

Lemma u64_testbit_high (x i : Z) :
  Word64.is_u64 x -> 64 <= i -> Z.testbit x i = false.
Proof.
  intros Hx Hi. unfold Word64.is_u64 in Hx.
  rewrite <- (Z.mod_small x (2 ^ 64)) by exact Hx.
  apply Z.mod_pow2_bits_high. lia.
Qed.

Lemma u64_of_bits (x : Z) :
  0 <= x -> (forall i, 64 <= i -> Z.testbit x i = false) -> Word64.is_u64 x.
Proof.
  intros Hx Hb. split; [exact Hx |].
  destruct (Z.eq_dec x 0) as [-> | Hne]; [reflexivity |].
  assert (Hlog : Z.log2 x < 64).
  { destruct (Z_lt_le_dec (Z.log2 x) 64) as [Hlt | Hge]; [exact Hlt |].
    assert (Hpos : 0 < x) by lia.
    pose proof (Z.bit_log2 x Hpos) as Hbit.
    rewrite (Hb _ Hge) in Hbit. discriminate Hbit. }
  apply Z.log2_lt_pow2; lia.
Qed.

(** The two halves of a rotation have no bit in common. *)
Lemma rotl_halves_disjoint (x n : Z) :
  Word64.is_u64 x -> 0 < n < 64 ->
  Z.land ((x * 2 ^ n) mod 2 ^ 64) (x / 2 ^ (64 - n)) = 0.
Proof.
  intros Hx Hn. apply Z.bits_inj'. intros i Hi.
  rewrite Z.land_spec, Z.bits_0, Z.testbit_mod_pow2 by lia.
  rewrite Z.div_pow2_bits by lia.
  destruct (Z_lt_le_dec i n) as [Hlt | Hge].
  - rewrite Z.mul_pow2_bits_low by exact Hlt.
    rewrite andb_false_r. reflexivity.
  - rewrite (u64_testbit_high x (i + (64 - n))) by (assumption || lia).
    apply andb_false_r.
Qed.

Lemma shl_shr_is_rotl (x n : Z) :
  Word64.is_u64 x -> 0 < n < 64 ->
  Z.lor (Word64.shl x n) (Word64.shr x (64 - n)) = Spec.rotl x n.
Proof.
  intros Hx Hn. unfold Word64.shl, Word64.shr, Word64.mask64, Spec.rotl.
  rewrite Z.land_ones, Z.shiftl_mul_pow2, Z.shiftr_div_pow2 by lia.
  rewrite <- Z.lxor_lor by (apply rotl_halves_disjoint; assumption).
  symmetry. apply Z.add_nocarry_lxor. apply rotl_halves_disjoint; assumption.
Qed.

Lemma rotl_0 (x : Z) : Word64.is_u64 x -> Spec.rotl x 0 = x.
Proof.
  intros Hx. unfold Spec.rotl, Word64.is_u64 in *.
  rewrite Z.div_small by (simpl; lia).
  rewrite Z.mod_small by lia. lia.
Qed.

Lemma rotl_testbit (x n i : Z) :
  Word64.is_u64 x -> 0 <= n < 64 -> 0 <= i < 64 ->
  Z.testbit (Spec.rotl x n) i = Z.testbit x ((i - n) mod 64).
Proof.
  intros Hx Hn Hi.
  destruct (Z.eq_dec n 0) as [-> | Hn0].
  - rewrite rotl_0 by exact Hx. rewrite Z.sub_0_r, Z.mod_small by lia.
    reflexivity.
  - unfold Spec.rotl.
    rewrite Z.add_nocarry_lxor by (apply rotl_halves_disjoint; (assumption || lia)).
    rewrite Z.lxor_spec, Z.testbit_mod_pow2, Z.div_pow2_bits by lia.
    destruct (Z_lt_le_dec i n) as [Hlt | Hge].
    + rewrite Z.mul_pow2_bits_low by exact Hlt.
      rewrite andb_false_r, xorb_false_l.
      f_equal. apply Z.mod_unique with (q := -1); lia.
    + rewrite (u64_testbit_high x (i + (64 - n))) by (assumption || lia).
      rewrite xorb_false_r, Z.mul_pow2_bits by lia.
      replace (i <? 64) with true by (symmetry; apply Z.ltb_lt; lia).
      rewrite (Z.mod_small (i - n)) by lia. reflexivity.
Qed.

Lemma rotl_range (x n : Z) :
  Word64.is_u64 x -> 0 <= n < 64 -> Word64.is_u64 (Spec.rotl x n).
Proof.
  intros Hx Hn.
  destruct (Z.eq_dec n 0) as [-> | Hn0]; [rewrite rotl_0; assumption |].
  unfold Spec.rotl, Word64.is_u64 in *.
  assert (H1 : 0 <= (x * 2 ^ n) mod 2 ^ 64 < 2 ^ 64) by (apply Z.mod_pos_bound; lia).
  assert (H2 : 0 <= x / 2 ^ (64 - n)) by (apply Z.div_pos; lia).
  assert (H3 : x / 2 ^ (64 - n) < 2 ^ 64).
  { apply Z.le_lt_trans with x; [| lia].
    apply Z.div_le_upper_bound; [lia |].
    assert (1 <= 2 ^ (64 - n)) by (apply (Z.pow_le_mono_r 2 0); lia). nia. }
  split; [lia |].
  apply Z.add_nocarry_lt_pow2; [apply rotl_halves_disjoint | |]; unfold Word64.is_u64; lia.
Qed.

(** For the amounts 1..63 the switch of [rotl64] returns what the
    default branch returns, whether it has a case of its own or not. *)
Lemma rotl64_cases (x n : Z) :
  1 <= n <= 63 ->
  AVX2.rotl64 x n = AVX2.rotl64_default x n /\
  AVX2.rotl64_default x n = Z.lor (Word64.shl x n) (Word64.shr x (64 - n)).
Proof.
  intros Hn.
  assert (H : In n (map Z.of_nat (seq 1 63))).
  { replace n with (Z.of_nat (Z.to_nat n)) by lia.
    apply in_map. apply in_seq. lia. }
  cbn [seq map Z.of_nat Pos.of_succ_nat Pos.succ] in H.
  repeat (destruct H as [<- | H]; [split; reflexivity |]).
  destruct H.
Qed.

(** 64-bit values are closed under the lane operations. *)

Lemma lxor_u64 (a b : Z) :
  Word64.is_u64 a -> Word64.is_u64 b -> Word64.is_u64 (Z.lxor a b).
Proof.
  intros Ha Hb. apply u64_of_bits.
  - apply Z.lxor_nonneg. unfold Word64.is_u64 in *. lia.
  - intros i Hi. rewrite Z.lxor_spec.
    rewrite (u64_testbit_high a), (u64_testbit_high b) by assumption.
    reflexivity.
Qed.

Lemma land_u64 (a b : Z) :
  Word64.is_u64 a -> Word64.is_u64 b -> Word64.is_u64 (Z.land a b).
Proof.
  intros Ha Hb. apply u64_of_bits.
  - apply Z.land_nonneg. unfold Word64.is_u64 in *. lia.
  - intros i Hi. rewrite Z.land_spec.
    rewrite (u64_testbit_high a) by assumption. reflexivity.
Qed.

Lemma mask64_u64 : Word64.is_u64 Word64.mask64.
Proof. unfold Word64.is_u64. cbv. split; [discriminate | reflexivity]. Qed.

Lemma not_u64 (a : Z) : Word64.is_u64 a -> Word64.is_u64 (Word64.not a).
Proof. intros Ha. apply lxor_u64; [exact Ha | exact mask64_u64]. Qed.

Lemma zero_u64 : Word64.is_u64 0.
Proof. unfold Word64.is_u64. lia. Qed.

Lemma rd_u64 (s : list Z) (i : nat) :
  Forall Word64.is_u64 s -> Word64.is_u64 (Mem.rd s i).
Proof.
  intros H. unfold Mem.rd. revert i.
  induction H as [| x l Hx Hl IH]; intros [| i]; cbn;
    auto using zero_u64.
Qed.

Lemma wr_u64 (s : list Z) (i : nat) (v : Z) :
  Forall Word64.is_u64 s -> Word64.is_u64 v -> Forall Word64.is_u64 (Mem.wr s i v).
Proof.
  intros H Hv. revert i.
  induction H as [| x l Hx Hl IH]; intros [| i]; cbn; auto.
Qed.

Lemma wr_length (s : list Z) (i : nat) (v : Z) :
  length (Mem.wr s i v) = length s.
Proof.
  revert i. induction s as [| x l IH]; intros [| i]; cbn; auto.
Qed.

Lemma wf_state_lanes (s : list Z) :
  wf_state s -> forall i, Word64.is_u64 (Mem.rd s i).
Proof. intros [_ H] i. apply rd_u64. exact H. Qed.

Lemma map_lanes_wf (f : nat -> Z) :
  (forall j, Word64.is_u64 (f j)) -> wf_state (map f Spec.lanes).
Proof.
  intros H. split; [reflexivity |].
  apply Forall_forall. intros x Hx. apply in_map_iff in Hx.
  destruct Hx as [j [<- _]]. apply H.
Qed.

(** Well-formedness of a concrete state, by computation. *)
Lemma wf_state_by_check (s : list Z) :
  length s = 25%nat ->
  forallb (fun x => (0 <=? x) && (x <? 2 ^ 64)) s = true ->
  wf_state s.
Proof.
  intros Hl Hb. split; [exact Hl |].
  apply Forall_forall. intros x Hx.
  rewrite forallb_forall in Hb. specialize (Hb x Hx).
  apply andb_true_iff in Hb. destruct Hb as [H1 H2].
  apply Z.leb_le in H1. apply Z.ltb_lt in H2.
  unfold Word64.is_u64. lia.
Qed.

Lemma rotl64_is_rotl (x n : Z) :
  Word64.is_u64 x -> 0 <= n <= 63 -> AVX2.rotl64 x n = Spec.rotl x n.
Proof.
  intros Hx Hn.
  destruct (Z.eq_dec n 0) as [-> | Hn0].
  - symmetry. apply rotl_0. exact Hx.
  - destruct (rotl64_cases x n) as [H1 H2]; [lia |].
    rewrite H1, H2. apply shl_shr_is_rotl; [exact Hx | lia].
Qed.

Lemma rotl64_u64 (x n : Z) :
  Word64.is_u64 x -> 0 <= n <= 63 -> Word64.is_u64 (AVX2.rotl64 x n).
Proof.
  intros Hx Hn. rewrite rotl64_is_rotl by assumption.
  apply rotl_range; [exact Hx | lia].
Qed.

(** A rotation loses nothing: bit [k] of [x] is bit [(k + n) mod 64] of
    the rotated value. *)
Lemma rotl64_inj (x y n : Z) :
  Word64.is_u64 x -> Word64.is_u64 y -> 0 <= n <= 63 ->
  AVX2.rotl64 x n = AVX2.rotl64 y n -> x = y.
Proof.
  intros Hx Hy Hn H.
  rewrite !rotl64_is_rotl in H by assumption.
  apply Z.bits_inj'. intros k Hk.
  destruct (Z_lt_le_dec k 64) as [Hlt | Hge].
  - assert (Hi : 0 <= (k + n) mod 64 < 64) by (apply Z.mod_pos_bound; lia).
    assert (Hback : ((k + n) mod 64 - n) mod 64 = k).
    { rewrite Zminus_mod_idemp_l.
      replace (k + n - n) with k by lia. apply Z.mod_small. lia. }
    pose proof (rotl_testbit x n _ Hx ltac:(lia) Hi) as Bx.
    pose proof (rotl_testbit y n _ Hy ltac:(lia) Hi) as By.
    rewrite Hback in Bx, By. rewrite <- Bx, <- By, H. reflexivity.
  - rewrite !u64_testbit_high by assumption. reflexivity.
Qed.

(** ** C9: [rotl64] *)

(** C9: for a 64-bit [x] and [0 <= n <= 63], [rotl64] of either file
    returns the rotate-left of [x] by [n] bits: the value
    [(x * 2^n) mod 2^64 + x / 2^(64-n)], a 64-bit value whose bit [i] is
    bit [(i - n) mod 64] of [x]; for [n <> 0] it is what the default
    branch returns, and [rotl64 x 0 = x]. *)
Theorem rotl64_rotates_left (x n : Z) :
  0 <= x < 2 ^ 64 -> 0 <= n <= 63 ->
  AVX2.rotl64 x n = Spec.rotl x n /\
  AVX512.rotl64 x n = Spec.rotl x n /\
  (n <> 0 -> AVX2.rotl64 x n = AVX2.rotl64_default x n /\
             AVX512.rotl64 x n = AVX512.rotl64_default x n) /\
  AVX2.rotl64 x 0 = x /\
  AVX512.rotl64 x 0 = x /\
  0 <= AVX2.rotl64 x n < 2 ^ 64 /\
  (forall i, 0 <= i < 64 ->
             Z.testbit (AVX2.rotl64 x n) i = Z.testbit x ((i - n) mod 64)).
Proof.
  intros Hx Hn.
  assert (Heq : AVX2.rotl64 x n = Spec.rotl x n)
    by (apply rotl64_is_rotl; assumption).
  split; [exact Heq |].
  split; [rewrite rotl64_agree; exact Heq |].
  split.
  { intros Hn0. destruct (rotl64_cases x n) as [H1 _]; [lia |].
    split; [exact H1 | exact H1]. }
  split; [reflexivity |].
  split; [reflexivity |].
  rewrite Heq. split.
  - apply rotl_range; [exact Hx | lia].
  - intros i Hi. apply rotl_testbit; [exact Hx | lia | exact Hi].
Qed.

Lemma rotl64_rotates_left_witness :
  AVX2.rotl64 0x8000000000000001 3 = Spec.rotl 0x8000000000000001 3.
Proof.
  refine (proj1 (rotl64_rotates_left 0x8000000000000001 3 _ _)); lia.
Defined.

(** ** C4: theta *)

Lemma mm512_horizontal_xor_epi64_elems (a b c d e f g h : Z) :
  AVX512.mm512_horizontal_xor_epi64 [a; b; c; d; e; f; g; h]
  = Z.lxor (Z.lxor (Z.lxor a e) (Z.lxor c g)) (Z.lxor (Z.lxor b f) (Z.lxor d h)).
Proof. reflexivity. Qed.

Lemma mm256_horizontal_xor_epi64_elems (a b c d : Z) :
  AVX2.mm256_horizontal_xor_epi64 [a; b; c; d]
  = Z.lxor (Z.lxor a c) (Z.lxor b d).
Proof. reflexivity. Qed.

(** The column sums of the AVX-512 engine are those of the
    specification, for every state. *)
Lemma theta_step_avx512_columns (state : list Z) :
  fst (AVX512.theta_step_avx512 state) = map (Spec.C state) (seq 0 5).
Proof.
  cbv [AVX512.theta_step_avx512 fst Intrin.mm512_set_epi64].
  rewrite !mm512_horizontal_xor_epi64_elems.
  cbv [Spec.C]. cbn [map seq Nat.add].
  lanewise z_bitwise.
Qed.

(** So are its D values, on well-formed states. *)
Lemma theta_step_avx512_d (state : list Z) :
  wf_state state ->
  snd (AVX512.theta_step_avx512 state) = map (Spec.D state) (seq 0 5).
Proof.
  intros Hwf.
  assert (HC : forall x, Word64.is_u64 (Spec.C state x)).
  { intros x. unfold Spec.C.
    repeat apply lxor_u64; apply wf_state_lanes; exact Hwf. }
  assert (E : snd (AVX512.theta_step_avx512 state)
              = theta_d (fst (AVX512.theta_step_avx512 state))) by reflexivity.
  rewrite E, theta_step_avx512_columns. unfold theta_d, Spec.D.
  cbn [map seq Mem.rd nth Nat.add Nat.modulo Nat.divmod fst snd Nat.sub].
  rewrite !rotl64_is_rotl by (apply HC || lia).
  reflexivity.
Qed.

(** The column sums of the AVX2 engine leave out the lane of row 0: lane
    [x] is XORed into each of the other four lanes of the column before
    the horizontal XOR, and cancels. *)
Lemma theta_step_avx2_columns (state : list Z) :
  fst (AVX2.theta_step_avx2 state)
  = map (fun x => Z.lxor (Z.lxor (Mem.rd state (x + 5)) (Mem.rd state (x + 10)))
                         (Z.lxor (Mem.rd state (x + 15)) (Mem.rd state (x + 20))))
        (seq 0 5).
Proof.
  cbv [AVX2.theta_step_avx2 fst Intrin.mm256_set_epi64x Intrin.mm256_set1_epi64x
       Intrin.mm256_xor_si256 Intrin.zip_with].
  rewrite !mm256_horizontal_xor_epi64_elems.
  cbn [map seq Nat.add].
  lanewise z_bitwise.
Qed.

(** The lanes after theta in the AVX-512 round, for every state: lane
    [j] is XORed with the D value of column [avx512_d_columns[j]], which is
    column [j mod 5] for the lanes 16..24 only. *)
Lemma Round_theta_avx512_lanes (state : list Z) :
  length state = 25%nat ->
  snd (AVX512.Round_theta state)
  = map (fun j => Z.lxor (Mem.rd state j)
                    (Mem.rd (snd (AVX512.theta_step_avx512 state))
                            (nth j avx512_d_columns 0%nat)))
        Spec.lanes.
Proof.
  intros H. unfold AVX512.Round_theta.
  destruct (AVX512.theta_step_avx512 state) as [c d]. cbn [snd].
  destruct_lanes state H. reflexivity.
Qed.

Lemma avx512_d_columns_agree :
  filter (fun j => Nat.eqb (nth j avx512_d_columns 0%nat) (j mod 5)) Spec.lanes
  = seq 16 9.
Proof. reflexivity. Qed.

(** C4 (fails on the code): on the state whose only non-zero lane is
    lane 0 = 1, theta of the specification has C[0] = 1, D[1] = 1 and
    D[4] = 2, and XORs them into columns 1 and 4.  The AVX2 engine computes
    C[0] = 0 and its 25 lanes after theta ([temp]) are the state as it was;
    the AVX-512 engine computes C and D as specified and XORs D into the
    wrong lanes of 0..15. *)
Theorem theta_engines_differ_from_theta :
  Spec.theta (single_lane 0 1)
    = [1; 1; 0; 0; 2; 0; 1; 0; 0; 2; 0; 1; 0; 0; 2; 0; 1; 0; 0; 2; 0; 1; 0; 0; 2] /\
  AVX2.theta_step_avx2 (single_lane 0 1) = ([0; 0; 0; 0; 0], [0; 0; 0; 0; 0]) /\
  snd (AVX2.Round_theta (single_lane 0 1)) = single_lane 0 1 /\
  AVX512.theta_step_avx512 (single_lane 0 1) = ([1; 0; 0; 0; 0], [0; 1; 0; 0; 2]) /\
  snd (AVX512.Round_theta (single_lane 0 1))
    = [0; 0; 0; 2; 0; 1; 0; 0; 0; 1; 0; 0; 2; 0; 1; 0; 1; 0; 0; 2; 0; 1; 0; 0; 2] /\
  snd (AVX2.Round_theta (single_lane 0 1)) <> Spec.theta (single_lane 0 1) /\
  snd (AVX512.Round_theta (single_lane 0 1)) <> Spec.theta (single_lane 0 1).
Proof.
  repeat split; vm_compute; try reflexivity; intro H; discriminate H.
Qed.

(** *** Theta of the AVX2 file is an involution *)

Lemma theta_step_avx2_d (state : list Z) :
  snd (AVX2.theta_step_avx2 state) = theta_d (fst (AVX2.theta_step_avx2 state)).
Proof. reflexivity. Qed.

Lemma Round_theta_avx2_apply (state : list Z) :
  length state = 25%nat ->
  snd (AVX2.Round_theta state)
  = theta_apply (snd (AVX2.theta_step_avx2 state)) state.
Proof.
  intros H. unfold AVX2.Round_theta.
  destruct (AVX2.theta_step_avx2 state) as [c d]. cbn [snd].
  destruct_lanes state H. reflexivity.
Qed.

Lemma theta_apply_length (d s : list Z) : length (theta_apply d s) = 25%nat.
Proof. reflexivity. Qed.

(** The column sums of the AVX2 file do not see the XOR of a D value into
    a column: each sum has four lanes of the column. *)
Lemma theta_step_avx2_columns_apply (d s : list Z) :
  length s = 25%nat ->
  fst (AVX2.theta_step_avx2 (theta_apply d s)) = fst (AVX2.theta_step_avx2 s).
Proof.
  intros H. rewrite !theta_step_avx2_columns.
  destruct_lanes s H.
  cbn [map seq Nat.add]. unfold theta_apply.
  cbn [map Spec.lanes seq Mem.rd nth Nat.modulo Nat.divmod fst snd Nat.sub].
  lanewise z_bitwise.
Qed.

Lemma theta_apply_twice (d s : list Z) :
  length s = 25%nat -> theta_apply d (theta_apply d s) = s.
Proof.
  intros H. destruct_lanes s H. unfold theta_apply.
  cbn [map Spec.lanes seq Mem.rd nth Nat.modulo Nat.divmod fst snd Nat.sub].
  lanewise z_bitwise.
Qed.

Lemma Round_theta_avx2_state_length (state : list Z) :
  length (fst (AVX2.Round_theta state)) = length state.
Proof.
  unfold AVX2.Round_theta.
  destruct (AVX2.theta_step_avx2 state) as [c d]. cbn [fst].
  unfold AVX2.THETA_TAIL. rewrite !wr_length. reflexivity.
Qed.

Lemma Round_theta_avx2_involutive (state : list Z) :
  length state = 25%nat ->
  snd (AVX2.Round_theta (snd (AVX2.Round_theta state))) = state.
Proof.
  intros H.
  rewrite (Round_theta_avx2_apply state H).
  rewrite Round_theta_avx2_apply by apply theta_apply_length.
  rewrite !theta_step_avx2_d.
  rewrite theta_step_avx2_columns_apply by exact H.
  apply theta_apply_twice. exact H.
Qed.

Lemma theta_step_avx2_u64 (state : list Z) (x : nat) :
  wf_state state ->
  Word64.is_u64 (Mem.rd (snd (AVX2.theta_step_avx2 state)) x).
Proof.
  intros Hwf. pose proof (wf_state_lanes state Hwf) as L.
  rewrite theta_step_avx2_d, theta_step_avx2_columns.
  assert (C : forall k, Word64.is_u64
            (Mem.rd (map (fun x => Z.lxor (Z.lxor (Mem.rd state (x + 5)) (Mem.rd state (x + 10)))
                         (Z.lxor (Mem.rd state (x + 15)) (Mem.rd state (x + 20))))
               (seq 0 5)) k)).
  { intros k. apply rd_u64. apply Forall_forall. intros v Hv.
    apply in_map_iff in Hv. destruct Hv as [j [<- _]].
    repeat apply lxor_u64; apply L. }
  apply rd_u64. unfold theta_d.
  repeat (apply Forall_cons; [apply lxor_u64; [apply C | apply rotl64_u64; [apply C | lia]] |]).
  apply Forall_nil.
Qed.

Lemma Round_theta_avx2_wf (state : list Z) :
  wf_state state -> wf_state (snd (AVX2.Round_theta state)).
Proof.
  intros Hwf. rewrite Round_theta_avx2_apply by apply Hwf.
  apply map_lanes_wf. intros j.
  apply lxor_u64; [apply wf_state_lanes; exact Hwf |].
  apply theta_step_avx2_u64. exact Hwf.
Qed.

(** ** C3 and C10: the fused rho and pi sequence *)

(** What the unrolled sequence computes, for every scratch array: lane
    [j] of the result is scratch lane [transpose j] rotated by the offset
    [rhotates] gives that scratch lane.  The rotation amounts are those of
    rho; the destinations are those of a transposition. *)
Lemma rho_pi_avx2_is_rho_then_transpose (state temp : list Z) :
  length state = 25%nat -> length temp = 25%nat ->
  AVX2.Round_rho_pi state temp
  = map (fun j => AVX2.rotl64 (Mem.rd temp (transpose j))
                    (Mem.rd AVX2.rhotates (transpose j))) Spec.lanes.
Proof.
  intros Hs Ht. destruct_lanes state Hs. destruct_lanes temp Ht.
  reflexivity.
Qed.

Lemma rho_pi_avx512_is_avx2 (state temp : list Z) :
  AVX512.Round_rho_pi state temp = AVX2.Round_rho_pi state temp.
Proof. reflexivity. Qed.

(** Every unrolled step rotates by the rho offset of its source lane. *)
Lemma rho_pi_steps_offsets :
  forallb (fun '(_, src, rot) => rot =? Mem.rd AVX2.rhotates src)
          AVX2.RHO_PI_STEPS = true.
Proof. reflexivity. Qed.

(** C3 (fails on the code): for the scratch state whose only non-zero
    lane is lane 1 = 1, rho then pi of the specification puts the rotated
    lane at lane 10 (lane (1,0) goes to (0,2)); the fused sequence of both
    engines puts it at lane 5.  Both rounds reach that scratch state: the
    AVX2 round from the state [single_lane 1 1], the AVX-512 round from
    [theta512_to_lane1]. *)
Theorem fused_rho_pi_is_not_rho_then_pi :
  AVX2.Round_rho_pi zero_state (single_lane 1 1) = single_lane 5 2 /\
  AVX512.Round_rho_pi zero_state (single_lane 1 1) = single_lane 5 2 /\
  Spec.pi (Spec.rho AVX2.rhotates (single_lane 1 1)) = single_lane 10 2 /\
  single_lane 5 2 <> single_lane 10 2 /\
  snd (AVX2.Round_theta (single_lane 1 1)) = single_lane 1 1 /\
  snd (AVX512.Round_theta theta512_to_lane1) = single_lane 1 1.
Proof.
  repeat split; vm_compute; try reflexivity; intro H; discriminate H.
Qed.

(** C10 (fails on the code): scratch lane 1 is stored into lane 5 by the
    unrolled steps of both engines, while [pi_lane_map[1]] is 10; the
    steps agree with the table on lanes 0, 7, 14, 16 and 23 only. *)
Theorem rho_pi_steps_do_not_follow_pi_lane_map :
  step_dest AVX2.RHO_PI_STEPS 1 = Some 5%nat /\
  step_dest AVX512.RHO_PI_STEPS 1 = Some 5%nat /\
  nth 1 AVX2.pi_lane_map 0%nat = 10%nat /\
  nth 1 AVX512.pi_lane_map 0%nat = 10%nat /\
  Mem.rd (AVX2.Round_rho_pi zero_state (single_lane 1 1)) 5 = 2 /\
  Mem.rd (AVX2.Round_rho_pi zero_state (single_lane 1 1))
         (nth 1 AVX2.pi_lane_map 0%nat) = 0 /\
  filter (fun i => Nat.eqb (transpose i) (nth i AVX2.pi_lane_map 0%nat))
         Spec.lanes = [0; 7; 14; 16; 23]%nat.
Proof. repeat split; reflexivity. Qed.

(** *** The fused sequence loses nothing *)

Lemma rhotates_range (i : nat) : 0 <= Mem.rd AVX2.rhotates i <= 63.
Proof.
  unfold Mem.rd.
  do 25 (destruct i as [| i]; [cbn; lia |]).
  destruct i; cbn; lia.
Qed.

Lemma Round_rho_pi_avx2_wf (state temp : list Z) :
  length state = 25%nat -> wf_state temp ->
  wf_state (AVX2.Round_rho_pi state temp).
Proof.
  intros Hs Ht. rewrite rho_pi_avx2_is_rho_then_transpose by (exact Hs || apply Ht).
  apply map_lanes_wf. intros j.
  apply rotl64_u64; [apply wf_state_lanes; exact Ht | apply rhotates_range].
Qed.

Lemma transpose_involutive (i : nat) :
  (i < 25)%nat -> transpose (transpose i) = i /\ (transpose i < 25)%nat.
Proof.
  intros H.
  do 25 (destruct i as [| i]; [split; [reflexivity | cbv; lia] |]).
  lia.
Qed.

Lemma Round_rho_pi_avx2_inj (state state' temp temp' : list Z) :
  length state = 25%nat -> length state' = 25%nat ->
  wf_state temp -> wf_state temp' ->
  AVX2.Round_rho_pi state temp = AVX2.Round_rho_pi state' temp' ->
  temp = temp'.
Proof.
  intros Hs Hs' Ht Ht' H.
  rewrite !rho_pi_avx2_is_rho_then_transpose in H by (assumption || apply Ht || apply Ht').
  assert (E : forall j, (j < 25)%nat ->
                        Mem.rd temp (transpose j) = Mem.rd temp' (transpose j)).
  { intros j Hj.
    apply (rotl64_inj _ _ (Mem.rd AVX2.rhotates (transpose j)));
      [apply wf_state_lanes; exact Ht | apply wf_state_lanes; exact Ht'
      | apply rhotates_range |].
    revert j Hj. rewrite map_ext_in_iff in H.
    intros j Hj. apply (H j). apply in_seq. lia. }
  destruct Ht as [Hl _], Ht' as [Hl' _].
  apply (nth_ext _ _ 0 0); [congruence |].
  intros i Hi. rewrite Hl in Hi.
  destruct (transpose_involutive i Hi) as [Hinv Hlt].
  specialize (E (transpose i) Hlt). rewrite Hinv in E. exact E.
Qed.

(** ** C5: chi *)

(** The AVX2 chi section is chi of the specification, for every state. *)
Lemma chi_avx2_is_chi (state : list Z) :
  length state = 25%nat -> AVX2.Round_chi state = Spec.chi state.
Proof.
  intros H. destruct_lanes state H. reflexivity.
Qed.

(** What [chi_process_row_avx512] computes on a row: the first shifted
    view selects element 5 (a zero) for lane 0 and is not circular, and the
    second is shifted by one lane, not two. *)
Lemma chi_process_row_avx512_row (a0 a1 a2 a3 a4 : Z) :
  AVX512.chi_process_row_avx512 [a0; a1; a2; a3; a4] 0
  = [ Z.lxor a0 (Z.land (Word64.not 0) a1);
      Z.lxor a1 (Z.land (Word64.not a1) a2);
      Z.lxor a2 (Z.land (Word64.not a2) a3);
      Z.lxor a3 (Z.land (Word64.not a3) a4);
      Z.lxor a4 (Z.land (Word64.not a0) a0) ].
Proof. reflexivity. Qed.

(** C5 (fails on the code): on the state whose only non-zero lane is
    lane 2 = 1, chi sets lane 0 to 0 XOR (NOT 0 AND 1) = 1 and leaves
    lane 1 at 0; the AVX2 engine does so, the AVX-512 engine leaves lane 0
    at 0 and sets lane 1.  Inside a round: from the state [lanes_10_15] the
    AVX-512 round reaches chi with row 0 = (0, 0, 8, 2^41, 0), and its chi
    returns (0, 8, 8 + 2^41, 2^41, 0) where chi is (8, 2^41, 8, 2^41, 0). *)
Theorem chi_avx512_differs_from_chi :
  Spec.chi (single_lane 2 1) = Mem.wr (single_lane 2 1) 0 1 /\
  AVX2.Round_chi (single_lane 2 1) = Spec.chi (single_lane 2 1) /\
  AVX512.Round_chi (single_lane 2 1) = Mem.wr (single_lane 2 1) 1 1 /\
  AVX512.Round_chi (single_lane 2 1) <> Spec.chi (single_lane 2 1) /\
  (let '(state, temp) := AVX512.Round_theta lanes_10_15 in
   let before_chi := AVX512.Round_rho_pi state temp in
   Mem.load before_chi 0 5 = [0; 0; 8; 2 ^ 41; 0] /\
   Mem.load (AVX512.Round_chi before_chi) 0 5 = [0; 8; 8 + 2 ^ 41; 2 ^ 41; 0] /\
   Mem.load (Spec.chi before_chi) 0 5 = [8; 2 ^ 41; 8; 2 ^ 41; 0]).
Proof.
  repeat split; vm_compute; try reflexivity; intro H; discriminate H.
Qed.

(** *** Chi is invertible *)

(** Chi on one bit position of a row is a bijection of the 32 rows. *)
Lemma chi_bits_inj (a0 a1 a2 a3 a4 b0 b1 b2 b3 b4 : bool) :
  xorb a0 (negb a1 && a2) = xorb b0 (negb b1 && b2) ->
  xorb a1 (negb a2 && a3) = xorb b1 (negb b2 && b3) ->
  xorb a2 (negb a3 && a4) = xorb b2 (negb b3 && b4) ->
  xorb a3 (negb a4 && a0) = xorb b3 (negb b4 && b0) ->
  xorb a4 (negb a0 && a1) = xorb b4 (negb b0 && b1) ->
  a0 = b0 /\ a1 = b1 /\ a2 = b2 /\ a3 = b3 /\ a4 = b4.
Proof.
  destruct a0, a1, a2, a3, a4, b0, b1, b2, b3, b4; cbn;
    intros E0 E1 E2 E3 E4;
    first [discriminate E0 | discriminate E1 | discriminate E2
          | discriminate E3 | discriminate E4 | repeat split].
Qed.

Lemma chi_testbit (a b c i : Z) :
  0 <= i < 64 ->
  Z.testbit (Z.lxor a (Z.land (Z.lxor b (Z.ones 64)) c)) i
  = xorb (Z.testbit a i) (negb (Z.testbit b i) && Z.testbit c i).
Proof.
  intros Hi. rewrite Z.lxor_spec, Z.land_spec, Z.lxor_spec.
  rewrite Z.ones_spec_low by lia. rewrite xorb_true_r. reflexivity.
Qed.

Lemma chi_row_inj (a0 a1 a2 a3 a4 b0 b1 b2 b3 b4 : Z) :
  Word64.is_u64 a0 -> Word64.is_u64 a1 -> Word64.is_u64 a2 ->
  Word64.is_u64 a3 -> Word64.is_u64 a4 ->
  Word64.is_u64 b0 -> Word64.is_u64 b1 -> Word64.is_u64 b2 ->
  Word64.is_u64 b3 -> Word64.is_u64 b4 ->
  Z.lxor a0 (Z.land (Z.lxor a1 (Z.ones 64)) a2)
    = Z.lxor b0 (Z.land (Z.lxor b1 (Z.ones 64)) b2) ->
  Z.lxor a1 (Z.land (Z.lxor a2 (Z.ones 64)) a3)
    = Z.lxor b1 (Z.land (Z.lxor b2 (Z.ones 64)) b3) ->
  Z.lxor a2 (Z.land (Z.lxor a3 (Z.ones 64)) a4)
    = Z.lxor b2 (Z.land (Z.lxor b3 (Z.ones 64)) b4) ->
  Z.lxor a3 (Z.land (Z.lxor a4 (Z.ones 64)) a0)
    = Z.lxor b3 (Z.land (Z.lxor b4 (Z.ones 64)) b0) ->
  Z.lxor a4 (Z.land (Z.lxor a0 (Z.ones 64)) a1)
    = Z.lxor b4 (Z.land (Z.lxor b0 (Z.ones 64)) b1) ->
  a0 = b0 /\ a1 = b1 /\ a2 = b2 /\ a3 = b3 /\ a4 = b4.
Proof.
  intros A0 A1 A2 A3 A4 B0 B1 B2 B3 B4 E0 E1 E2 E3 E4.
  assert (Bits : forall i, 0 <= i ->
            Z.testbit a0 i = Z.testbit b0 i /\ Z.testbit a1 i = Z.testbit b1 i /\
            Z.testbit a2 i = Z.testbit b2 i /\ Z.testbit a3 i = Z.testbit b3 i /\
            Z.testbit a4 i = Z.testbit b4 i).
  { intros i Hi. destruct (Z_lt_le_dec i 64) as [Hlt | Hge].
    - apply chi_bits_inj; rewrite <- !chi_testbit by lia; congruence.
    - rewrite !u64_testbit_high by assumption. repeat split. }
  repeat split; apply Z.bits_inj'; intros i Hi; apply (Bits i Hi).
Qed.

Lemma chi_wf (a : list Z) : wf_state a -> wf_state (Spec.chi a).
Proof.
  intros Ha. apply map_lanes_wf. intros j. unfold Spec.chi_lane.
  pose proof (wf_state_lanes a Ha) as L.
  apply lxor_u64; [apply L |].
  apply land_u64; [| apply L].
  apply lxor_u64; [apply L | exact mask64_u64].
Qed.

Lemma chi_inj (a b : list Z) :
  wf_state a -> wf_state b -> Spec.chi a = Spec.chi b -> a = b.
Proof.
  intros Ha Hb H.
  pose proof (wf_state_lanes a Ha) as Ua.
  pose proof (wf_state_lanes b Hb) as Ub.
  unfold Spec.chi in H. rewrite map_ext_in_iff in H.
  assert (L : forall j, (j < 25)%nat -> Spec.chi_lane a j = Spec.chi_lane b j).
  { intros j Hj. apply H. apply in_seq. lia. }
  assert (R : forall y, (y < 5)%nat ->
            Mem.rd a (5 * y) = Mem.rd b (5 * y) /\
            Mem.rd a (5 * y + 1) = Mem.rd b (5 * y + 1) /\
            Mem.rd a (5 * y + 2) = Mem.rd b (5 * y + 2) /\
            Mem.rd a (5 * y + 3) = Mem.rd b (5 * y + 3) /\
            Mem.rd a (5 * y + 4) = Mem.rd b (5 * y + 4)).
  { intros y Hy.
    do 5 (destruct y as [| y];
          [ match goal with
            | |- Mem.rd a ?k = _ /\ _ =>
                let k' := eval cbn in k in
                pose proof (L k' ltac:(lia)) as E0;
                pose proof (L (k' + 1)%nat ltac:(cbn; lia)) as E1;
                pose proof (L (k' + 2)%nat ltac:(cbn; lia)) as E2;
                pose proof (L (k' + 3)%nat ltac:(cbn; lia)) as E3;
                pose proof (L (k' + 4)%nat ltac:(cbn; lia)) as E4
            end;
            cbv [Spec.chi_lane Spec.lane] in E0, E1, E2, E3, E4;
            cbn [Nat.add Nat.mul Nat.modulo Nat.div Nat.divmod fst snd Nat.sub]
              in E0, E1, E2, E3, E4 |- *;
            apply chi_row_inj; first [apply Ua | apply Ub | assumption] |]).
    lia. }
  destruct Ha as [La _], Hb as [Lb _].
  apply (nth_ext _ _ 0 0); [congruence |].
  intros i Hi. rewrite La in Hi.
  change (Mem.rd a i = Mem.rd b i).
  assert (Hrow : (i / 5 < 5)%nat) by (apply Nat.Div0.div_lt_upper_bound; lia).
  destruct (R (i / 5)%nat Hrow) as (R0 & R1 & R2 & R3 & R4).
  pose proof (Nat.div_mod_eq i 5) as Hdm.
  assert (Hm : (i mod 5 < 5)%nat) by (apply Nat.mod_upper_bound; lia).
  destruct (i mod 5)%nat as [| [| [| [| [| m]]]]] eqn:Em;
    [rewrite Nat.add_0_r in Hdm | | | | | lia]; rewrite Hdm; assumption.
Qed.

(** ** The AVX2 round is invertible *)

Lemma Round_iota_avx2_wf (state : list Z) (rc : Z) :
  wf_state state -> Word64.is_u64 rc -> wf_state (AVX2.Round_iota state rc).
Proof.
  intros [Hl Hu] Hrc. unfold AVX2.Round_iota. split.
  - rewrite wr_length. exact Hl.
  - apply wr_u64; [exact Hu |].
    apply lxor_u64; [apply rd_u64; exact Hu | exact Hrc].
Qed.

Lemma lxor_cancel_r (a b c : Z) : Z.lxor a c = Z.lxor b c -> a = b.
Proof.
  intros H. apply (f_equal (fun z => Z.lxor z c)) in H.
  rewrite !Z.lxor_assoc, Z.lxor_nilpotent, !Z.lxor_0_r in H. exact H.
Qed.

Lemma Round_iota_avx2_inj (a b : list Z) (rc : Z) :
  AVX2.Round_iota a rc = AVX2.Round_iota b rc -> a = b.
Proof.
  unfold AVX2.Round_iota, Mem.rd.
  destruct a as [| a0 a], b as [| b0 b]; cbn; intros H;
    try reflexivity; try discriminate H.
  injection H as H0 Ht. apply lxor_cancel_r in H0. congruence.
Qed.

Lemma Round_avx2_sections (state : list Z) (rc : Z) :
  AVX2.KeccakP1600_Round_avx2 state rc
  = AVX2.Round_iota
      (AVX2.Round_chi
         (AVX2.Round_rho_pi (fst (AVX2.Round_theta state))
                            (snd (AVX2.Round_theta state)))) rc.
Proof.
  unfold AVX2.KeccakP1600_Round_avx2.
  destruct (AVX2.Round_theta state) as [state' temp]. reflexivity.
Qed.

Lemma Round_avx2_wf (state : list Z) (rc : Z) :
  wf_state state -> Word64.is_u64 rc ->
  wf_state (AVX2.KeccakP1600_Round_avx2 state rc).
Proof.
  intros Hs Hrc. rewrite Round_avx2_sections.
  apply Round_iota_avx2_wf; [| exact Hrc].
  assert (Hrp : wf_state (AVX2.Round_rho_pi (fst (AVX2.Round_theta state))
                                            (snd (AVX2.Round_theta state)))).
  { apply Round_rho_pi_avx2_wf;
      [rewrite Round_theta_avx2_state_length; apply Hs
      | apply Round_theta_avx2_wf; exact Hs]. }
  rewrite chi_avx2_is_chi by apply Hrp.
  apply chi_wf. exact Hrp.
Qed.

Lemma Round_avx2_inj (s s' : list Z) (rc : Z) :
  wf_state s -> wf_state s' ->
  AVX2.KeccakP1600_Round_avx2 s rc = AVX2.KeccakP1600_Round_avx2 s' rc ->
  s = s'.
Proof.
  intros Hs Hs' H. rewrite !Round_avx2_sections in H.
  apply Round_iota_avx2_inj in H.
  assert (L : length (fst (AVX2.Round_theta s)) = 25%nat)
    by (rewrite Round_theta_avx2_state_length; apply Hs).
  assert (L' : length (fst (AVX2.Round_theta s')) = 25%nat)
    by (rewrite Round_theta_avx2_state_length; apply Hs').
  assert (W : wf_state (AVX2.Round_rho_pi (fst (AVX2.Round_theta s))
                                          (snd (AVX2.Round_theta s)))).
  { apply Round_rho_pi_avx2_wf; [exact L | apply Round_theta_avx2_wf; exact Hs]. }
  assert (W' : wf_state (AVX2.Round_rho_pi (fst (AVX2.Round_theta s'))
                                           (snd (AVX2.Round_theta s')))).
  { apply Round_rho_pi_avx2_wf; [exact L' | apply Round_theta_avx2_wf; exact Hs']. }
  rewrite (chi_avx2_is_chi _ (proj1 W)), (chi_avx2_is_chi _ (proj1 W')) in H.
  apply chi_inj in H; [| exact W | exact W'].
  apply Round_rho_pi_avx2_inj in H;
    [| exact L | exact L' | apply Round_theta_avx2_wf; exact Hs
     | apply Round_theta_avx2_wf; exact Hs'].
  rewrite <- (Round_theta_avx2_involutive s (proj1 Hs)).
  rewrite <- (Round_theta_avx2_involutive s' (proj1 Hs')).
  rewrite H. reflexivity.
Qed.

Lemma fold_left_step (A B : Type) (f : A -> B -> A) (x : B) (l : list B) (a : A) :
  fold_left f (x :: l) a = fold_left f l (f a x).
Proof. reflexivity. Qed.

Lemma rounds_avx2_wf (rcs : list Z) (s : list Z) :
  Forall Word64.is_u64 rcs -> wf_state s ->
  wf_state (fold_left AVX2.KeccakP1600_Round_avx2 rcs s).
Proof.
  intros Hrcs. revert s.
  induction Hrcs as [| rc rcs Hrc _ IH]; intros s Hs.
  - exact Hs.
  - rewrite fold_left_step. apply IH. apply Round_avx2_wf; assumption.
Qed.

Lemma rounds_avx2_inj (rcs : list Z) (s s' : list Z) :
  Forall Word64.is_u64 rcs -> wf_state s -> wf_state s' ->
  fold_left AVX2.KeccakP1600_Round_avx2 rcs s
    = fold_left AVX2.KeccakP1600_Round_avx2 rcs s' ->
  s = s'.
Proof.
  intros Hrcs. revert s s'.
  induction Hrcs as [| rc rcs Hrc _ IH]; intros s s' Hs Hs' H.
  - exact H.
  - rewrite !fold_left_step in H.
    apply IH in H; try (apply Round_avx2_wf; assumption).
    apply (Round_avx2_inj s s' rc); assumption.
Qed.

Lemma round_constants_u64 : Forall Word64.is_u64 AVX2.KeccakF1600RoundConstants.
Proof.
  unfold AVX2.KeccakF1600RoundConstants, Word64.is_u64.
  repeat (apply Forall_cons; [lia |]). apply Forall_nil.
Qed.

Lemma Permute_24rounds_avx2_fold (s : list Z) :
  AVX2.KeccakP1600_Permute_24rounds_avx2 s
  = fold_left AVX2.KeccakP1600_Round_avx2 AVX2.KeccakF1600RoundConstants s.
Proof.
  unfold AVX2.KeccakP1600_Permute_24rounds_avx2, AVX2.KECCAK_ROUND,
    AVX2.KeccakF1600RoundConstants.
  cbn [fold_left Mem.rd nth]. reflexivity.
Qed.

(** The AVX2 24-round permutation is injective on well-formed states and
    maps them to well-formed states. *)
Lemma avx2_permutation_injective (s s' : list Z) :
  wf_state s -> wf_state s' ->
  AVX2.KeccakP1600_Permute_24rounds_avx2 s
    = AVX2.KeccakP1600_Permute_24rounds_avx2 s' ->
  s = s'.
Proof.
  intros Hs Hs' H.
  rewrite (Permute_24rounds_avx2_fold s), (Permute_24rounds_avx2_fold s') in H.
  exact (rounds_avx2_inj AVX2.KeccakF1600RoundConstants s s'
           round_constants_u64 Hs Hs' H).
Qed.

Lemma avx2_permutation_wf (s : list Z) :
  wf_state s -> wf_state (AVX2.KeccakP1600_Permute_24rounds_avx2 s).
Proof.
  intros Hs. rewrite (Permute_24rounds_avx2_fold s).
  apply rounds_avx2_wf; [exact round_constants_u64 | exact Hs].
Qed.

(** ** C8: invertibility *)

(** C8 (fails on the code): the AVX-512 24-round permutation sends two
    different well-formed states to the same state: the state whose row 2
    is all ones, and the same state with lanes 0 and 5 all ones too.
    Already the first round makes them equal.  So it is not injective. *)
Theorem avx512_permutation_collides :
  wf_state ones_row2 /\ wf_state ones_row2_col0 /\
  ones_row2 <> ones_row2_col0 /\
  AVX512.KeccakP1600_Round_avx512 ones_row2 1
    = AVX512.KeccakP1600_Round_avx512 ones_row2_col0 1 /\
  AVX512.KeccakP1600_Permute_24rounds_avx512 ones_row2
    = AVX512.KeccakP1600_Permute_24rounds_avx512 ones_row2_col0 /\
  ~ (forall s s', wf_state s -> wf_state s' ->
       AVX512.KeccakP1600_Permute_24rounds_avx512 s
         = AVX512.KeccakP1600_Permute_24rounds_avx512 s' -> s = s').
Proof.
  assert (W : wf_state ones_row2) by (apply wf_state_by_check; reflexivity).
  assert (W' : wf_state ones_row2_col0) by (apply wf_state_by_check; reflexivity).
  assert (N : ones_row2 <> ones_row2_col0) by (intro H; discriminate H).
  assert (E : AVX512.KeccakP1600_Permute_24rounds_avx512 ones_row2
              = AVX512.KeccakP1600_Permute_24rounds_avx512 ones_row2_col0)
    by (vm_compute; reflexivity).
  split; [exact W |]. split; [exact W' |]. split; [exact N |].
  split; [vm_compute; reflexivity |]. split; [exact E |].
  intros Inj. exact (N (Inj _ _ W W' E)).
Qed.

(** ** C1: the two engines against each other *)

(** C1 (fails on the code): on the all-zero state the AVX2 and the
    AVX-512 24-round permutations return different states, and so do the
    two 12-round entry points; so neither pair agrees on every state. *)
Theorem engines_diverge_on_zero_state :
  wf_state zero_state /\
  AVX2.KeccakP1600_Permute_24rounds_avx2 zero_state
    <> AVX512.KeccakP1600_Permute_24rounds_avx512 zero_state /\
  AVX2.KeccakP1600_Permute_12rounds_avx2 zero_state
    <> AVX512.KeccakP1600_Permute_12rounds_avx512 zero_state /\
  Mem.rd (AVX2.KeccakP1600_Permute_24rounds_avx2 zero_state) 0
    = 0x25b155a53a8165cf /\
  Mem.rd (AVX512.KeccakP1600_Permute_24rounds_avx512 zero_state) 0
    = 0xaaba66c4c32f0336 /\
  ~ (forall s, wf_state s ->
       AVX2.KeccakP1600_Permute_24rounds_avx2 s
         = AVX512.KeccakP1600_Permute_24rounds_avx512 s) /\
  ~ (forall s, wf_state s ->
       AVX2.KeccakP1600_Permute_12rounds_avx2 s
         = AVX512.KeccakP1600_Permute_12rounds_avx512 s).
Proof.
  assert (W : wf_state zero_state) by (apply wf_state_by_check; reflexivity).
  assert (N24 : AVX2.KeccakP1600_Permute_24rounds_avx2 zero_state
                <> AVX512.KeccakP1600_Permute_24rounds_avx512 zero_state)
    by (vm_compute; intro H; discriminate H).
  assert (N12 : AVX2.KeccakP1600_Permute_12rounds_avx2 zero_state
                <> AVX512.KeccakP1600_Permute_12rounds_avx512 zero_state)
    by (vm_compute; intro H; discriminate H).
  split; [exact W |]. split; [exact N24 |]. split; [exact N12 |].
  split; [vm_compute; reflexivity |]. split; [vm_compute; reflexivity |].
  split; intros A; [exact (N24 (A _ W)) | exact (N12 (A _ W))].
Qed.

(** ** C2: the known-answer test *)

(** C2 (fails on the code): permuting the all-zero state with either
    engine does not give the published Keccak-p[1600,24] vector; already
    lane 0 differs from 0xF1258F7940E1DDE7. *)
Theorem zero_state_known_answer_fails :
  AVX2.KeccakP1600_Permute_24rounds_avx2 zero_state <> Spec.zero_state_vector /\
  AVX512.KeccakP1600_Permute_24rounds_avx512 zero_state <> Spec.zero_state_vector /\
  Mem.rd Spec.zero_state_vector 0 = 0xF1258F7940E1DDE7 /\
  Mem.rd (AVX2.KeccakP1600_Permute_24rounds_avx2 zero_state) 0
    = 0x25b155a53a8165cf /\
  Mem.rd (AVX512.KeccakP1600_Permute_24rounds_avx512 zero_state) 0
    = 0xaaba66c4c32f0336.
Proof.
  repeat split; vm_compute; try reflexivity; intro H; discriminate H.
Qed.

(** ** C6: the dispatcher *)

Lemma nth_error_set_thread (ts : list Threads.thread) (t i : nat)
    (th : Threads.thread) :
  nth_error (Threads.set_thread ts t th) i
  = if Nat.eqb i t
    then match nth_error ts i with Some _ => Some th | None => None end
    else nth_error ts i.
Proof.
  revert t i.
  induction ts as [| x rest IH]; intros t i.
  - destruct t, i; cbn; try reflexivity; destruct (Nat.eqb i t); reflexivity.
  - destruct t as [| t'], i as [| i']; cbn; try reflexivity.
    apply IH.
Qed.

Lemma others_idle_spec (ts : list Threads.thread) (t : nat) :
  Threads.others_idle ts t = true ->
  forall i th, i <> t -> nth_error ts i = Some th -> Threads.idle th = true.
Proof.
  revert t.
  induction ts as [| x rest IH]; intros t H i th Hi E.
  - destruct i; discriminate E.
  - destruct t as [| t'].
    + destruct i as [| i']; [contradiction Hi; reflexivity |].
      cbn in H, E.
      rewrite forallb_forall in H.
      apply H. exact (nth_error_In rest i' E).
    + cbn in H. apply andb_true_iff in H. destruct H as [Hx Hrest].
      destruct i as [| i'].
      * cbn in E. injection E as <-. exact Hx.
      * cbn in E. apply (IH t' Hrest i' th); [lia | exact E].
Qed.

Lemma others_idle_middle (before after : list Threads.thread)
    (th : Threads.thread) :
  Threads.others_idle (before ++ th :: after) (length before)
  = forallb Threads.idle before && forallb Threads.idle after.
Proof.
  induction before as [| x rest IH]; [reflexivity |].
  cbn [app length Threads.others_idle forallb].
  rewrite IH. apply andb_assoc.
Qed.

Lemma nth_error_middle (before after : list Threads.thread)
    (th : Threads.thread) :
  nth_error (before ++ th :: after) (length before) = Some th.
Proof.
  induction before as [| x rest IH]; [reflexivity | exact IH].
Qed.

Lemma set_thread_middle (before after : list Threads.thread)
    (th th' : Threads.thread) :
  Threads.set_thread (before ++ th :: after) (length before) th'
  = before ++ th' :: after.
Proof.
  induction before as [| x rest IH]; [reflexivity |].
  cbn [app length Threads.set_thread]. rewrite IH. reflexivity.
Qed.

Section DispatcherProperties.
Import Dispatch.

Variable AVX2_defined : bool.
Variable AVX512_defined : bool.
Variable ebx : Z.
Variable KeccakP1600_Permute_24rounds_reference : list Z -> list Z.

Let entry := KeccakP1600_Permute_24rounds AVX2_defined AVX512_defined ebx
               KeccakP1600_Permute_24rounds_reference.

(** The engine function behind each binding. *)
Let output (e : engine) (state : list Z) : list Z :=
  match e with
  | Reference => KeccakP1600_Permute_24rounds_reference state
  | Avx2 => AVX2.KeccakP1600_Permute_24rounds_avx2 state
  | Avx512 => AVX512.KeccakP1600_Permute_24rounds_avx512 state
  end.

(** The most capable supported engine, by the bits of EBX that the two
    probes test. *)
Let selected : engine :=
  if AVX512_defined && (Z.land ebx 0xC0030000 =? 0xC0030000) then Avx512
  else if AVX2_defined && negb (Z.land ebx 32 =? 0) then Avx2
  else Reference.

(** The cpuid queries of one initialisation. *)
Let cost : nat :=
  ((if AVX2_defined then 1 else 0) + (if AVX512_defined then 1 else 0))%nat.

Let resolved : world := mkWorld (Some selected) cost.

(** An invocation in the unresolved state binds the most capable
    engine, whatever the builds and the processor, and runs it. *)
Lemma entry_unresolved (n : nat) (state : list Z) :
  entry (mkWorld None n) state
  = (mkWorld (Some selected) (n + cost), Some (output selected state)).
Proof.
  unfold entry, output, selected, cost, KeccakP1600_Permute_24rounds,
    init_permute_function, supportsAVX2, supportsAVX512, cpuid, bind, call.
  cbn [permute_fn cpuid_calls snd].
  change (Z.lor (Z.lor (Z.lor (Z.shiftl 1 16) (Z.shiftl 1 17))
            (Z.shiftl 1 30)) (Z.shiftl 1 31)) with 0xC0030000.
  change (Z.shiftl 1 5) with 32.
  destruct AVX2_defined, AVX512_defined; cbn [andb];
    repeat match goal with
      | |- context [if ?b then _ else _] => destruct b
      end;
    cbn [permute_fn cpuid_calls option_map negb];
    repeat f_equal; lia.
Qed.

(** An invocation in a resolved state changes nothing and makes no
    capability query. *)
Lemma entry_resolved (e : engine) (n : nat) (state : list Z) :
  entry (mkWorld (Some e) n) state
  = (mkWorld (Some e) n, Some (output e state)).
Proof. destruct e; reflexivity. Qed.

Lemma invocations_resolved (e : engine) (n : nat) (states : list (list Z)) :
  invocations AVX2_defined AVX512_defined ebx
    KeccakP1600_Permute_24rounds_reference (mkWorld (Some e) n) states
  = (mkWorld (Some e) n, map (fun st => Some (output e st)) states).
Proof.
  induction states as [| st rest IH]; [reflexivity |].
  cbn [invocations map].
  change (KeccakP1600_Permute_24rounds AVX2_defined AVX512_defined ebx
            KeccakP1600_Permute_24rounds_reference) with entry.
  rewrite entry_resolved, IH. reflexivity.
Qed.

(** *** Invocations as threads *)

(** The binding between the AVX2 and the AVX-512 statements of an
    initialisation that nothing interrupts. *)
Let halfway : world :=
  if AVX2_defined then
    if negb (Z.land ebx 32 =? 0) then mkWorld (Some Avx2) 1
    else mkWorld (Some Reference) 1
  else mkWorld (Some Reference) 0.

(** What holds of an invocation on buffer [input] and of the binding
    while no two invocations overlap. *)
Let thread_ok (w : world) (input : list Z) (th : Threads.thread) : Prop :=
  match Threads.at_pc th with
  | Threads.AtEntry => Threads.buffer th = input
  | Threads.InitTest | Threads.InitDefault =>
      Threads.buffer th = input /\ w = initial
  | Threads.InitAVX2 =>
      Threads.buffer th = input /\ w = mkWorld (Some Reference) 0
  | Threads.InitAVX512 => Threads.buffer th = input /\ w = halfway
  | Threads.AtCall => Threads.buffer th = input /\ w = resolved
  | Threads.Done called =>
      called = Some selected /\
      Threads.buffer th = output selected input /\
      w = resolved
  end.

Let step_thread := Threads.step_thread AVX2_defined AVX512_defined ebx
                     KeccakP1600_Permute_24rounds_reference.

Lemma step_thread_keeps (w : world) (input : list Z) (th : Threads.thread) :
  thread_ok w input th ->
  (Threads.idle th = true -> w = initial \/ w = resolved) ->
  thread_ok (fst (step_thread w th)) input (snd (step_thread w th)) /\
  (w = resolved -> fst (step_thread w th) = resolved) /\
  (Threads.idle (snd (step_thread w th)) = true ->
   fst (step_thread w th) = resolved).
Proof.
  destruct th as [p buf].
  unfold thread_ok, step_thread, Threads.step_thread, Threads.idle.
  destruct p; cbn [Threads.at_pc Threads.buffer fst snd].
  - (* AtEntry *)
    intros Hb Hw. destruct (Hw eq_refl) as [-> | ->];
      cbn [permute_fn initial resolved Threads.at_pc Threads.buffer];
      repeat split; auto; discriminate.
  - (* InitTest *)
    intros [Hb ->] _.
    cbn [permute_fn initial Threads.at_pc Threads.buffer].
    repeat split; auto; discriminate.
  - (* InitDefault *)
    intros [Hb ->] _.
    cbn [Threads.at_pc Threads.buffer].
    repeat split; auto; discriminate.
  - (* InitAVX2 *)
    intros [Hb ->] _.
    unfold halfway, resolved, selected, cost, supportsAVX2, cpuid, bind.
    change (Z.shiftl 1 5) with 32.
    cbn [Threads.at_pc Threads.buffer permute_fn cpuid_calls].
    destruct AVX2_defined, AVX512_defined; cbn [andb negb Nat.add];
      destruct (Z.land ebx 32 =? 0);
      destruct (Z.land ebx 0xC0030000 =? 0xC0030000);
      cbn [negb]; repeat split; auto; discriminate.
  - (* InitAVX512 *)
    intros [Hb ->] _.
    unfold halfway, resolved, selected, cost, supportsAVX512, cpuid, bind.
    change (Z.lor (Z.lor (Z.lor (Z.shiftl 1 16) (Z.shiftl 1 17))
              (Z.shiftl 1 30)) (Z.shiftl 1 31)) with 0xC0030000.
    cbn [Threads.at_pc Threads.buffer permute_fn cpuid_calls].
    destruct AVX2_defined, AVX512_defined; cbn [andb negb Nat.add];
      destruct (Z.land ebx 32 =? 0);
      destruct (Z.land ebx 0xC0030000 =? 0xC0030000);
      cbn [negb permute_fn cpuid_calls]; repeat split; auto; discriminate.
  - (* AtCall *)
    intros [Hb ->] _.
    cbn [permute_fn resolved Threads.at_pc Threads.buffer].
    rewrite Hb.
    repeat split; reflexivity.
  - (* Done *)
    intros (Hc & Hb & ->) _.
    cbn [Threads.at_pc Threads.buffer].
    repeat split; auto.
Qed.

(** An invocation that runs alone, from any binding, is the entry point
    as a function: same binding afterwards, same result in the buffer. *)
Lemma thread_alone_is_entry (w : world) (state : list Z) :
  Threads.run AVX2_defined AVX512_defined ebx
    KeccakP1600_Permute_24rounds_reference (repeat 0%nat 6)
    (Threads.mkConfig w [Threads.mkThread Threads.AtEntry state])
  = Threads.mkConfig (fst (entry w state))
      [Threads.mkThread (Threads.Done (permute_fn (fst (entry w state))))
         (match snd (entry w state) with
          | Some result => result
          | None => state
          end)].
Proof.
  destruct w as [[e |] n].
  - reflexivity.
  - rewrite entry_unresolved.
    unfold Threads.run, Threads.step, Threads.step_thread.
    cbn [repeat fold_left Threads.threads Threads.shared nth_error
           Threads.at_pc Threads.buffer permute_fn Threads.set_thread].
    unfold supportsAVX2, supportsAVX512, cpuid, bind, selected, cost.
    change (Z.lor (Z.lor (Z.lor (Z.shiftl 1 16) (Z.shiftl 1 17))
              (Z.shiftl 1 30)) (Z.shiftl 1 31)) with 0xC0030000.
    change (Z.shiftl 1 5) with 32.
    destruct AVX2_defined, AVX512_defined; cbn [andb negb];
      destruct (Z.land ebx 32 =? 0);
      destruct (Z.land ebx 0xC0030000 =? 0xC0030000);
      cbn [negb permute_fn cpuid_calls fst snd Threads.at_pc Threads.buffer
             Threads.threads Threads.shared nth_error Threads.set_thread];
      repeat f_equal; lia.
Qed.

(** The invariant of the runs in which no two invocations overlap. *)
Let invariant (inputs : list (list Z)) (c : Threads.config) : Prop :=
  (forall i th, nth_error (Threads.threads c) i = Some th ->
     thread_ok (Threads.shared c) (nth i inputs []) th) /\
  ((forall i th, nth_error (Threads.threads c) i = Some th ->
      Threads.idle th = true) ->
   Threads.shared c = initial \/ Threads.shared c = resolved).

Lemma invariant_start (inputs : list (list Z)) :
  invariant inputs (Threads.start inputs).
Proof.
  split; [| left; reflexivity].
  intros i th E.
  unfold Threads.start in E. cbn [Threads.threads] in E.
  rewrite nth_error_map in E.
  destruct (nth_error inputs i) as [b |] eqn:Eb; [| discriminate E].
  cbn in E. injection E as <-.
  unfold thread_ok. cbn [Threads.at_pc Threads.buffer].
  symmetry. exact (nth_error_nth inputs i [] Eb).
Qed.

Lemma invariant_step (inputs : list (list Z)) (c : Threads.config) (t : nat) :
  invariant inputs c ->
  Threads.others_idle (Threads.threads c) t = true ->
  invariant inputs
    (Threads.step AVX2_defined AVX512_defined ebx
       KeccakP1600_Permute_24rounds_reference c t).
Proof.
  intros [Hok Hquiet] Hothers.
  unfold Threads.step.
  destruct (nth_error (Threads.threads c) t) as [th |] eqn:Et;
    [| split; assumption].
  pose proof (others_idle_spec _ _ Hothers) as Hidle.
  assert (Hw : Threads.idle th = true ->
               Threads.shared c = initial \/ Threads.shared c = resolved).
  { intro Hth. apply Hquiet. intros i th0 E.
    destruct (Nat.eq_dec i t) as [-> | Hne].
    - rewrite Et in E. injection E as <-. exact Hth.
    - exact (Hidle i th0 Hne E). }
  destruct (step_thread_keeps (Threads.shared c) (nth t inputs []) th
              (Hok t th Et) Hw) as (Hnew & Hkeep & Hdone).
  fold step_thread.
  destruct (step_thread (Threads.shared c) th) as [w' th'] eqn:Es.
  cbn [fst snd] in Hnew, Hkeep, Hdone.
  split; cbn [Threads.threads Threads.shared].
  - intros i th0 E.
    rewrite nth_error_set_thread in E.
    destruct (Nat.eqb_spec i t) as [-> | Hne].
    + rewrite Et in E. injection E as <-. exact Hnew.
    + pose proof (Hok i th0 E) as H0.
      pose proof (Hidle i th0 Hne E) as Hi.
      revert H0 Hi. unfold thread_ok, Threads.idle.
      destruct (Threads.at_pc th0); try discriminate; auto.
      intros (Hc & Hb & Hr) _. auto.
  - intros Hall. right. apply Hdone.
    apply (Hall t).
    rewrite nth_error_set_thread, Nat.eqb_refl, Et. reflexivity.
Qed.

Lemma invariant_run (inputs : list (list Z)) (schedule : list nat) :
  forall c,
    invariant inputs c ->
    Threads.no_overlap AVX2_defined AVX512_defined ebx
      KeccakP1600_Permute_24rounds_reference schedule c = true ->
    invariant inputs
      (Threads.run AVX2_defined AVX512_defined ebx
         KeccakP1600_Permute_24rounds_reference schedule c).
Proof.
  induction schedule as [| t rest IH]; intros c Hinv Hno.
  - exact Hinv.
  - cbn [Threads.no_overlap] in Hno.
    apply andb_true_iff in Hno. destruct Hno as [Ht Hrest].
    unfold Threads.run. cbn [fold_left].
    apply IH; [apply invariant_step; assumption | exact Hrest].
Qed.

(** *** Invocations one after another *)

Lemma run_app (s1 s2 : list nat) (c : Threads.config) :
  Threads.run AVX2_defined AVX512_defined ebx
    KeccakP1600_Permute_24rounds_reference (s1 ++ s2) c
  = Threads.run AVX2_defined AVX512_defined ebx
      KeccakP1600_Permute_24rounds_reference s2
      (Threads.run AVX2_defined AVX512_defined ebx
         KeccakP1600_Permute_24rounds_reference s1 c).
Proof. apply fold_left_app. Qed.

Lemma no_overlap_app (s1 s2 : list nat) :
  forall c,
    Threads.no_overlap AVX2_defined AVX512_defined ebx
      KeccakP1600_Permute_24rounds_reference (s1 ++ s2) c
    = Threads.no_overlap AVX2_defined AVX512_defined ebx
        KeccakP1600_Permute_24rounds_reference s1 c
      && Threads.no_overlap AVX2_defined AVX512_defined ebx
           KeccakP1600_Permute_24rounds_reference s2
           (Threads.run AVX2_defined AVX512_defined ebx
              KeccakP1600_Permute_24rounds_reference s1 c).
Proof.
  induction s1 as [| t rest IH]; intro c; [reflexivity |].
  cbn [app Threads.no_overlap]. rewrite IH, andb_assoc. reflexivity.
Qed.

(** Every point of a run without overlap is the end of a run without
    overlap. *)
Lemma no_overlap_prefix (s1 s2 : list nat) (c : Threads.config) :
  Threads.no_overlap AVX2_defined AVX512_defined ebx
    KeccakP1600_Permute_24rounds_reference (s1 ++ s2) c = true ->
  Threads.no_overlap AVX2_defined AVX512_defined ebx
    KeccakP1600_Permute_24rounds_reference s1 c = true.
Proof.
  rewrite no_overlap_app. intro H.
  apply andb_true_iff in H. exact (proj1 H).
Qed.

(** Statements of one thread leave the other threads as they are and
    overlap with none of them if they are idle. *)
Lemma run_one_thread (before after : list Threads.thread) (t n : nat) :
  t = length before ->
  forall w th,
    Threads.run AVX2_defined AVX512_defined ebx
      KeccakP1600_Permute_24rounds_reference (repeat t n)
      (Threads.mkConfig w (before ++ th :: after))
    = Threads.mkConfig
        (fst (Threads.run_thread AVX2_defined AVX512_defined ebx
                KeccakP1600_Permute_24rounds_reference n w th))
        (before
         ++ snd (Threads.run_thread AVX2_defined AVX512_defined ebx
                   KeccakP1600_Permute_24rounds_reference n w th)
         :: after).
Proof.
  intros ->.
  induction n as [| n IH]; intros w th; [reflexivity |].
  cbn [repeat Threads.run_thread].
  unfold Threads.run. cbn [fold_left].
  unfold Threads.step at 2. cbn [Threads.threads Threads.shared].
  rewrite nth_error_middle.
  fold step_thread.
  destruct (step_thread w th) as [w' th'].
  rewrite set_thread_middle.
  apply IH.
Qed.

Lemma no_overlap_one_thread (before after : list Threads.thread)
    (t n : nat) :
  t = length before ->
  forallb Threads.idle before = true ->
  forallb Threads.idle after = true ->
  forall w th,
    Threads.no_overlap AVX2_defined AVX512_defined ebx
      KeccakP1600_Permute_24rounds_reference (repeat t n)
      (Threads.mkConfig w (before ++ th :: after)) = true.
Proof.
  intros -> Hb Ha.
  induction n as [| n IH]; intros w th; [reflexivity |].
  cbn [repeat Threads.no_overlap Threads.threads].
  rewrite others_idle_middle, Hb, Ha. cbn [andb].
  unfold Threads.step. cbn [Threads.threads Threads.shared].
  rewrite nth_error_middle.
  fold step_thread.
  destruct (step_thread w th) as [w' th'].
  rewrite set_thread_middle.
  apply IH.
Qed.

(** Six statements take an invocation from its entry to its return,
    with the selected engine bound and applied to its buffer, whether
    the binding was unresolved or resolved before. *)
Lemma run_thread_returns (w : world) (state : list Z) :
  w = initial \/ w = resolved ->
  Threads.run_thread AVX2_defined AVX512_defined ebx
    KeccakP1600_Permute_24rounds_reference 6 w
    (Threads.mkThread Threads.AtEntry state)
  = (resolved,
     Threads.mkThread (Threads.Done (Some selected))
       (output selected state)).
Proof.
  intros [-> | ->].
  - unfold resolved, selected, cost, initial.
    cbn [Threads.run_thread].
    unfold Threads.step_thread, supportsAVX2, supportsAVX512, cpuid, bind.
    change (Z.lor (Z.lor (Z.lor (Z.shiftl 1 16) (Z.shiftl 1 17))
              (Z.shiftl 1 30)) (Z.shiftl 1 31)) with 0xC0030000.
    change (Z.shiftl 1 5) with 32.
    cbn [Threads.at_pc Threads.buffer permute_fn cpuid_calls].
    destruct AVX2_defined, AVX512_defined; cbn [andb negb];
      destruct (Z.land ebx 32 =? 0);
      destruct (Z.land ebx 0xC0030000 =? 0xC0030000);
      cbn [negb permute_fn cpuid_calls Threads.at_pc Threads.buffer Nat.add];
      unfold call, output; reflexivity.
  - unfold resolved, output. destruct selected; reflexivity.
Qed.

Let returned (state : list Z) : Threads.thread :=
  Threads.mkThread (Threads.Done (Some selected)) (output selected state).

Lemma one_after_another_from (rest : list (list Z)) :
  forall (done : list (list Z)) (w : world),
    (done = [] /\ w = initial) \/ w = resolved ->
    let schedule :=
      flat_map (fun t => repeat t 6) (seq (length done) (length rest)) in
    let c :=
      Threads.mkConfig w
        (map returned done ++ map (Threads.mkThread Threads.AtEntry) rest) in
    Threads.no_overlap AVX2_defined AVX512_defined ebx
      KeccakP1600_Permute_24rounds_reference schedule c = true /\
    Threads.run AVX2_defined AVX512_defined ebx
      KeccakP1600_Permute_24rounds_reference schedule c
    = Threads.mkConfig (match rest with [] => w | _ => resolved end)
        (map returned (done ++ rest)).
Proof.
  induction rest as [| b rest IH]; intros done w Hw schedule c.
  - subst schedule c. cbn [length seq flat_map map].
    rewrite !app_nil_r. split; reflexivity.
  - subst schedule c.
    cbn [length seq flat_map map].
    assert (Hlen : length done = length (map returned done))
      by (symmetry; apply length_map).
    assert (Hbefore : forallb Threads.idle (map returned done) = true).
    { apply forallb_forall. intros th Hin.
      apply in_map_iff in Hin. destruct Hin as (st & <- & _). reflexivity. }
    assert (Hafter : forallb Threads.idle
                       (map (Threads.mkThread Threads.AtEntry) rest) = true).
    { apply forallb_forall. intros th Hin.
      apply in_map_iff in Hin. destruct Hin as (st & <- & _). reflexivity. }
    assert (Hstart : w = initial \/ w = resolved) by tauto.
    rewrite no_overlap_app, run_app.
    rewrite (run_one_thread _ _ _ 6 Hlen),
      (no_overlap_one_thread _ _ _ 6 Hlen Hbefore Hafter).
    rewrite (run_thread_returns w b Hstart).
    cbn [fst snd andb].
    destruct (IH (done ++ [b]) resolved (or_intror eq_refl)) as [Hno Hrun].
    rewrite length_app, Nat.add_1_r in Hno, Hrun.
    rewrite map_app, <- app_assoc in Hno, Hrun.
    cbn [map app] in Hno, Hrun.
    fold (returned b).
    split; [exact Hno |].
    rewrite Hrun, <- app_assoc. cbn [app].
    destruct rest; reflexivity.
Qed.


End DispatcherProperties.



(** ** C7: the 12-round entry points *)

(** C7: each 12-round entry point is the round function applied for
    the round constants at indices 12..23 of the schedule, in that order
    (twelve of them), and the 24-round entry point is the rounds for the
    constants at indices 0..11 followed by the 12-round entry point. *)
Theorem twelve_rounds_are_the_last_twelve (state : list Z) :
  AVX2.KeccakP1600_Permute_12rounds_avx2 state
    = fold_left AVX2.KeccakP1600_Round_avx2
        (skipn 12 AVX2.KeccakF1600RoundConstants) state /\
  AVX2.KeccakP1600_Permute_24rounds_avx2 state
    = AVX2.KeccakP1600_Permute_12rounds_avx2
        (fold_left AVX2.KeccakP1600_Round_avx2
           (firstn 12 AVX2.KeccakF1600RoundConstants) state) /\
  AVX512.KeccakP1600_Permute_12rounds_avx512 state
    = fold_left AVX512.KeccakP1600_Round_avx512
        (skipn 12 AVX512.KeccakF1600RoundConstants) state /\
  AVX512.KeccakP1600_Permute_24rounds_avx512 state
    = AVX512.KeccakP1600_Permute_12rounds_avx512
        (fold_left AVX512.KeccakP1600_Round_avx512
           (firstn 12 AVX512.KeccakF1600RoundConstants) state) /\
  length (skipn 12 AVX2.KeccakF1600RoundConstants) = 12%nat /\
  length AVX2.KeccakF1600RoundConstants = 24%nat /\
  length (skipn 12 AVX512.KeccakF1600RoundConstants) = 12%nat /\
  length AVX512.KeccakF1600RoundConstants = 24%nat.
Proof.
  unfold AVX2.KeccakP1600_Permute_24rounds_avx2,
    AVX2.KeccakP1600_Permute_12rounds_avx2, AVX2.KECCAK_ROUND,
    AVX2.KECCAK_ROUND_12, AVX2.KeccakF1600RoundConstants,
    AVX512.KeccakP1600_Permute_24rounds_avx512,
    AVX512.KeccakP1600_Permute_12rounds_avx512, AVX512.KECCAK_ROUND,
    AVX512.KeccakF1600RoundConstants.
  cbn [fold_left skipn firstn Mem.rd nth Nat.add length].
  repeat split.
Qed.

(** * Further properties of the sources *)

(** ** Reads and writes of lane arrays *)

Lemma rd_wr (s : list Z) (k i : nat) (v : Z) :
  (k < length s)%nat ->
  Mem.rd (Mem.wr s k v) i = if Nat.eqb i k then v else Mem.rd s i.
Proof.
  unfold Mem.rd. revert k i.
  induction s as [| h t IH]; intros k i Hk; cbn in Hk; [lia |].
  destruct k as [| k], i as [| i]; cbn; try reflexivity.
  apply IH. lia.
Qed.

Lemma lanes_u64_wf (s : list Z) :
  length s = 25%nat -> (forall i, Word64.is_u64 (Mem.rd s i)) -> wf_state s.
Proof.
  intros Hl H. split; [exact Hl |].
  apply Forall_forall. intros x Hx.
  destruct (In_nth _ _ 0 Hx) as [i [_ Hi]]. rewrite <- Hi. apply H.
Qed.

(** One round on a buffer that continues past the state, by computation
    on 25 named lanes. *)
Lemma Round_avx2_frame (s g : list Z) (rc : Z) :
  length s = 25%nat ->
  AVX2.KeccakP1600_Round_avx2 (s ++ g) rc
  = AVX2.KeccakP1600_Round_avx2 s rc ++ g.
Proof.
  intros H. destruct_lanes s H. reflexivity.
Qed.

Lemma Round_avx512_frame (s g : list Z) (rc : Z) :
  length s = 25%nat ->
  AVX512.KeccakP1600_Round_avx512 (s ++ g) rc
  = AVX512.KeccakP1600_Round_avx512 s rc ++ g.
Proof.
  intros H. destruct_lanes s H. reflexivity.
Qed.

Lemma Round_avx2_length (s : list Z) (rc : Z) :
  length s = 25%nat -> length (AVX2.KeccakP1600_Round_avx2 s rc) = 25%nat.
Proof. intros H. destruct_lanes s H. reflexivity. Qed.

Lemma Round_avx512_length (s : list Z) (rc : Z) :
  length s = 25%nat -> length (AVX512.KeccakP1600_Round_avx512 s rc) = 25%nat.
Proof. intros H. destruct_lanes s H. reflexivity. Qed.

Section RoundsFrame.
Variable round : list Z -> Z -> list Z.
Hypothesis round_length :
  forall s rc, length s = 25%nat -> length (round s rc) = 25%nat.
Hypothesis round_frame :
  forall s g rc, length s = 25%nat -> round (s ++ g) rc = round s rc ++ g.

Lemma rounds_length (rcs : list Z) (s : list Z) :
  length s = 25%nat -> length (fold_left round rcs s) = 25%nat.
Proof.
  revert s. induction rcs as [| rc rcs IH]; intros s H; [exact H |].
  rewrite fold_left_step. apply IH. apply round_length. exact H.
Qed.

Lemma rounds_frame (rcs : list Z) (s g : list Z) :
  length s = 25%nat ->
  fold_left round rcs (s ++ g) = fold_left round rcs s ++ g.
Proof.
  revert s. induction rcs as [| rc rcs IH]; intros s H; [reflexivity |].
  rewrite !fold_left_step, round_frame by exact H.
  apply IH. apply round_length. exact H.
Qed.
End RoundsFrame.

Lemma Permute_12rounds_avx2_fold (s : list Z) :
  AVX2.KeccakP1600_Permute_12rounds_avx2 s
  = fold_left AVX2.KeccakP1600_Round_avx2
      (skipn 12 AVX2.KeccakF1600RoundConstants) s.
Proof.
  unfold AVX2.KeccakP1600_Permute_12rounds_avx2, AVX2.KECCAK_ROUND_12,
    AVX2.KeccakF1600RoundConstants.
  cbn [fold_left skipn Mem.rd nth Nat.add]. reflexivity.
Qed.

Lemma Permute_24rounds_avx512_fold (s : list Z) :
  AVX512.KeccakP1600_Permute_24rounds_avx512 s
  = fold_left AVX512.KeccakP1600_Round_avx512 AVX512.KeccakF1600RoundConstants s.
Proof.
  unfold AVX512.KeccakP1600_Permute_24rounds_avx512, AVX512.KECCAK_ROUND,
    AVX512.KeccakF1600RoundConstants.
  cbn [fold_left Mem.rd nth]. reflexivity.
Qed.

Lemma Permute_12rounds_avx512_fold (s : list Z) :
  AVX512.KeccakP1600_Permute_12rounds_avx512 s
  = fold_left AVX512.KeccakP1600_Round_avx512
      (skipn 12 AVX512.KeccakF1600RoundConstants) s.
Proof.
  unfold AVX512.KeccakP1600_Permute_12rounds_avx512, AVX512.KECCAK_ROUND,
    AVX512.KeccakF1600RoundConstants.
  cbn [fold_left skipn Mem.rd nth]. reflexivity.
Qed.

(** X4: no lane outside the 25 lanes of the state is read or written by
    the AVX2 entry points: run on a buffer that continues past the state,
    they leave the continuation as it is and return on the first 25 lanes
    what they return on the 25 lanes alone. *)
Theorem avx2_permutations_stay_in_state (s g : list Z) :
  length s = 25%nat ->
  AVX2.KeccakP1600_Permute_24rounds_avx2 (s ++ g)
    = AVX2.KeccakP1600_Permute_24rounds_avx2 s ++ g /\
  AVX2.KeccakP1600_Permute_12rounds_avx2 (s ++ g)
    = AVX2.KeccakP1600_Permute_12rounds_avx2 s ++ g /\
  length (AVX2.KeccakP1600_Permute_24rounds_avx2 s) = 25%nat /\
  length (AVX2.KeccakP1600_Permute_12rounds_avx2 s) = 25%nat.
Proof.
  intros H.
  rewrite (Permute_24rounds_avx2_fold (s ++ g)), (Permute_24rounds_avx2_fold s),
    (Permute_12rounds_avx2_fold (s ++ g)), (Permute_12rounds_avx2_fold s).
  repeat split.
  - apply rounds_frame; [exact Round_avx2_length | exact Round_avx2_frame | exact H].
  - apply rounds_frame; [exact Round_avx2_length | exact Round_avx2_frame | exact H].
  - apply rounds_length; [exact Round_avx2_length | exact H].
  - apply rounds_length; [exact Round_avx2_length | exact H].
Qed.

Lemma avx2_permutations_stay_in_state_witness :
  AVX2.KeccakP1600_Permute_24rounds_avx2 (sample_state ++ [7; 9])
  = AVX2.KeccakP1600_Permute_24rounds_avx2 sample_state ++ [7; 9].
Proof.
  refine (proj1 (avx2_permutations_stay_in_state sample_state [7; 9] _)).
  reflexivity.
Defined.

(** X5: no lane outside the 25 lanes of the state is read or written by
    the AVX-512 entry points: run on a buffer that continues past the
    state, they leave the continuation as it is (the masked store of the
    last chi row does not write past lane 24) and return on the first 25
    lanes what they return on the 25 lanes alone. *)
Theorem avx512_permutations_stay_in_state (s g : list Z) :
  length s = 25%nat ->
  AVX512.KeccakP1600_Permute_24rounds_avx512 (s ++ g)
    = AVX512.KeccakP1600_Permute_24rounds_avx512 s ++ g /\
  AVX512.KeccakP1600_Permute_12rounds_avx512 (s ++ g)
    = AVX512.KeccakP1600_Permute_12rounds_avx512 s ++ g /\
  length (AVX512.KeccakP1600_Permute_24rounds_avx512 s) = 25%nat /\
  length (AVX512.KeccakP1600_Permute_12rounds_avx512 s) = 25%nat.
Proof.
  intros H.
  rewrite (Permute_24rounds_avx512_fold (s ++ g)), (Permute_24rounds_avx512_fold s),
    (Permute_12rounds_avx512_fold (s ++ g)), (Permute_12rounds_avx512_fold s).
  repeat split.
  - apply rounds_frame; [exact Round_avx512_length | exact Round_avx512_frame | exact H].
  - apply rounds_frame; [exact Round_avx512_length | exact Round_avx512_frame | exact H].
  - apply rounds_length; [exact Round_avx512_length | exact H].
  - apply rounds_length; [exact Round_avx512_length | exact H].
Qed.

Lemma avx512_permutations_stay_in_state_witness :
  AVX512.KeccakP1600_Permute_24rounds_avx512 (sample_state ++ [7; 9])
  = AVX512.KeccakP1600_Permute_24rounds_avx512 sample_state ++ [7; 9].
Proof.
  refine (proj1 (avx512_permutations_stay_in_state sample_state [7; 9] _)).
  reflexivity.
Defined.

(** ** The chi row functions *)

(** X13: [chi_process_row] on a row that lies inside the array, for any
    [row_base]: the array keeps its length, the five lanes of the row get
    lane XOR (NOT next lane AND lane after next), indices circular in the
    row and read before any write, and every other lane is left as it is. *)
Theorem chi_process_row_lanes (state : list Z) (row_base i : nat) :
  (row_base + 5 <= length state)%nat ->
  length (AVX2.chi_process_row state row_base) = length state /\
  Mem.rd (AVX2.chi_process_row state row_base) i
  = if (row_base <=? i)%nat && (i <? row_base + 5)%nat
    then chi_row_lane state row_base (i - row_base)
    else Mem.rd state i.
Proof.
  intros H. unfold AVX2.chi_process_row, chi_row_lane. cbv zeta.
  split; [rewrite !wr_length; reflexivity |].
  rewrite !rd_wr by (rewrite ?wr_length; lia).
  row_cases row_base i.
Qed.

Lemma chi_process_row_lanes_witness :
  length (AVX2.chi_process_row sample_state 5) = length sample_state /\
  Mem.rd (AVX2.chi_process_row sample_state 5) 7
  = if (5 <=? 7)%nat && (7 <? 5 + 5)%nat
    then chi_row_lane sample_state 5 (7 - 5)
    else Mem.rd sample_state 7.
Proof.
  apply (chi_process_row_lanes sample_state 5 7). simpl. lia.
Defined.

(** *** The row function of the AVX-512 file *)

Lemma chi_process_row_avx512_writes (state : list Z) (b : nat) :
  AVX512.chi_process_row_avx512 state b
  = let a0 := Mem.rd state b in
    let a1 := Mem.rd state (b + 1) in
    let a2 := Mem.rd state (b + 2) in
    let a3 := Mem.rd state (b + 3) in
    let a4 := Mem.rd state (b + 4) in
    Mem.wr (Mem.wr (Mem.wr (Mem.wr (Mem.wr state b
      (Z.lxor a0 (Z.land (Word64.not 0) a1)))
      (S b) (Z.lxor a1 (Z.land (Word64.not a1) a2)))
      (S (S b)) (Z.lxor a2 (Z.land (Word64.not a2) a3)))
      (S (S (S b))) (Z.lxor a3 (Z.land (Word64.not a3) a4)))
      (S (S (S (S b)))) (Z.lxor a4 (Z.land (Word64.not a0) a0)).
Proof. reflexivity. Qed.

Lemma not_testbit (a i : Z) :
  0 <= i -> Z.testbit (Word64.not a) i = xorb (Z.testbit a i) (i <? 64).
Proof.
  intros Hi. unfold Word64.not, Word64.mask64.
  rewrite Z.lxor_spec, Z.testbit_ones_nonneg by lia. reflexivity.
Qed.

Lemma u64_lxor_andn (a b : Z) :
  Word64.is_u64 a -> Word64.is_u64 b ->
  Z.lxor a (Z.land (Word64.not a) b) = Z.lor a b.
Proof.
  intros Ha Hb. apply Z.bits_inj'. intros i Hi.
  rewrite Z.lxor_spec, Z.land_spec, Z.lor_spec, not_testbit by exact Hi.
  destruct (Z.ltb_spec i 64).
  - destruct (Z.testbit a i), (Z.testbit b i); reflexivity.
  - rewrite (u64_testbit_high a), (u64_testbit_high b) by (assumption || lia).
    reflexivity.
Qed.

Lemma u64_lxor_and_not0 (a b : Z) :
  Word64.is_u64 b -> Z.lxor a (Z.land (Word64.not 0) b) = Z.lxor a b.
Proof.
  intros Hb. f_equal. apply Z.bits_inj'. intros i Hi.
  rewrite Z.land_spec, not_testbit, Z.bits_0 by exact Hi.
  destruct (Z.ltb_spec i 64); cbn.
  - reflexivity.
  - rewrite (u64_testbit_high b) by (assumption || lia). reflexivity.
Qed.

Lemma u64_lxor_andn_self (a b : Z) :
  Word64.is_u64 b -> Z.lxor a (Z.land (Word64.not b) b) = a.
Proof.
  intros Hb. rewrite <- (Z.lxor_0_r a) at 2. f_equal.
  apply Z.bits_inj'. intros i Hi.
  rewrite Z.land_spec, not_testbit, Z.bits_0 by exact Hi.
  destruct (Z.ltb_spec i 64).
  - destruct (Z.testbit b i); reflexivity.
  - rewrite (u64_testbit_high b) by (assumption || lia). reflexivity.
Qed.

(** X15: [chi_process_row_avx512] on a row of 64-bit lanes inside the
    array, for any [row_base]: the array keeps its length, the row
    (a0, a1, a2, a3, a4) becomes (a0 XOR a1, a1 OR a2, a2 OR a3, a3 OR a4, a4),
    and every lane outside the row is left as it is: the three excess
    elements of the vector are not stored. *)
Theorem chi_process_row_avx512_lanes (state : list Z) (row_base i : nat) :
  (row_base + 5 <= length state)%nat ->
  (forall k, Word64.is_u64 (Mem.rd state k)) ->
  length (AVX512.chi_process_row_avx512 state row_base) = length state /\
  Mem.rd (AVX512.chi_process_row_avx512 state row_base) i
  = if (row_base <=? i)%nat && (i <? row_base + 5)%nat
    then chi512_row_lane state row_base (i - row_base)
    else Mem.rd state i.
Proof.
  intros H U. rewrite chi_process_row_avx512_writes. cbv zeta.
  split; [rewrite !wr_length; reflexivity |].
  rewrite !rd_wr by (rewrite ?wr_length; lia).
  rewrite u64_lxor_and_not0, !u64_lxor_andn, u64_lxor_andn_self by apply U.
  destruct (Nat.eqb_spec i (S (S (S (S row_base))))) as [-> | N4].
  { replace (row_base <=? _)%nat with true by (symmetry; apply Nat.leb_le; lia).
    replace (_ <? row_base + 5)%nat with true by (symmetry; apply Nat.ltb_lt; lia).
    replace (S (S (S (S row_base))) - row_base)%nat with 4%nat by lia.
    reflexivity. }
  destruct (Nat.eqb_spec i (S (S (S row_base)))) as [-> | N3].
  { replace (row_base <=? _)%nat with true by (symmetry; apply Nat.leb_le; lia).
    replace (_ <? row_base + 5)%nat with true by (symmetry; apply Nat.ltb_lt; lia).
    replace (S (S (S row_base)) - row_base)%nat with 3%nat by lia.
    cbn [andb chi512_row_lane].
    replace (row_base + 3 + 1)%nat with (row_base + 4)%nat by lia. reflexivity. }
  destruct (Nat.eqb_spec i (S (S row_base))) as [-> | N2].
  { replace (row_base <=? _)%nat with true by (symmetry; apply Nat.leb_le; lia).
    replace (_ <? row_base + 5)%nat with true by (symmetry; apply Nat.ltb_lt; lia).
    replace (S (S row_base) - row_base)%nat with 2%nat by lia.
    cbn [andb chi512_row_lane].
    replace (row_base + 2 + 1)%nat with (row_base + 3)%nat by lia. reflexivity. }
  destruct (Nat.eqb_spec i (S row_base)) as [-> | N1].
  { replace (row_base <=? _)%nat with true by (symmetry; apply Nat.leb_le; lia).
    replace (_ <? row_base + 5)%nat with true by (symmetry; apply Nat.ltb_lt; lia).
    replace (S row_base - row_base)%nat with 1%nat by lia.
    cbn [andb chi512_row_lane].
    replace (row_base + 1 + 1)%nat with (row_base + 2)%nat by lia. reflexivity. }
  destruct (Nat.eqb_spec i row_base) as [-> | N0].
  { replace (row_base <=? _)%nat with true by (symmetry; apply Nat.leb_le; lia).
    replace (_ <? row_base + 5)%nat with true by (symmetry; apply Nat.ltb_lt; lia).
    replace (row_base - row_base)%nat with 0%nat by lia.
    reflexivity. }
  destruct (Nat.leb_spec row_base i); destruct (Nat.ltb_spec i (row_base + 5));
    cbn [andb]; try reflexivity; lia.
Qed.

Lemma chi_process_row_avx512_lanes_witness :
  length (AVX512.chi_process_row_avx512 sample_state 20) = length sample_state /\
  Mem.rd (AVX512.chi_process_row_avx512 sample_state 20) 21
  = if (20 <=? 21)%nat && (21 <? 20 + 5)%nat
    then chi512_row_lane sample_state 20 (21 - 20)
    else Mem.rd sample_state 21.
Proof.
  apply (chi_process_row_avx512_lanes sample_state 20 21).
  - simpl. lia.
  - apply wf_state_lanes. apply wf_state_by_check; reflexivity.
Defined.

(** ** Horizontal XOR *)

(** X6: [mm256_horizontal_xor_epi64] returns the XOR of the four
    elements of its vector, each taken once. *)
Theorem mm256_horizontal_xor_all_elements (v : list Z) :
  length v = 4%nat ->
  AVX2.mm256_horizontal_xor_epi64 v = fold_right Z.lxor 0 v.
Proof.
  intros H.
  do 4 (destruct v as [| ? v]; [discriminate H |]).
  destruct v; [| discriminate H].
  rewrite mm256_horizontal_xor_epi64_elems. cbn [fold_right].
  z_bitwise.
Qed.

Lemma mm256_horizontal_xor_all_elements_witness :
  AVX2.mm256_horizontal_xor_epi64 [1; 2; 4; 8] = fold_right Z.lxor 0 [1; 2; 4; 8].
Proof.
  apply (mm256_horizontal_xor_all_elements [1; 2; 4; 8]). reflexivity.
Defined.

(** X7: [mm512_horizontal_xor_epi64] returns the XOR of the eight
    elements of its vector, each taken once. *)
Theorem mm512_horizontal_xor_all_elements (v : list Z) :
  length v = 8%nat ->
  AVX512.mm512_horizontal_xor_epi64 v = fold_right Z.lxor 0 v.
Proof.
  intros H.
  do 8 (destruct v as [| ? v]; [discriminate H |]).
  destruct v; [| discriminate H].
  rewrite mm512_horizontal_xor_epi64_elems. cbn [fold_right].
  z_bitwise.
Qed.

Lemma mm512_horizontal_xor_all_elements_witness :
  AVX512.mm512_horizontal_xor_epi64 [1; 2; 4; 8; 16; 32; 64; 128]
  = fold_right Z.lxor 0 [1; 2; 4; 8; 16; 32; 64; 128].
Proof.
  apply (mm512_horizontal_xor_all_elements [1; 2; 4; 8; 16; 32; 64; 128]).
  reflexivity.
Defined.

(** ** theta_step *)

(** X8: on a well-formed state [theta_step_avx2] fills [c[x]] with the XOR
    of the four lanes x+5, x+10, x+15, x+20 (lane x is not in it) and
    [d[x]] with c[(x+4) mod 5] XOR rotate-left(c[(x+1) mod 5], 1). *)
Theorem theta_step_avx2_computes (state : list Z) :
  wf_state state ->
  AVX2.theta_step_avx2 state
  = (map (column_rows_1_4 state) (seq 0 5),
     map (fun x => Z.lxor (column_rows_1_4 state ((x + 4) mod 5))
                     (Spec.rotl (column_rows_1_4 state ((x + 1) mod 5)) 1))
         (seq 0 5)).
Proof.
  intros Hwf.
  assert (HC : forall x, Word64.is_u64 (column_rows_1_4 state x)).
  { intros x. unfold column_rows_1_4.
    repeat apply lxor_u64; apply wf_state_lanes; exact Hwf. }
  rewrite (surjective_pairing (AVX2.theta_step_avx2 state)).
  rewrite theta_step_avx2_d, theta_step_avx2_columns.
  fold (column_rows_1_4 state).
  f_equal. unfold theta_d.
  cbn [map seq Mem.rd nth Nat.add Nat.modulo Nat.divmod fst snd Nat.sub].
  rewrite !rotl64_is_rotl by (apply HC || lia).
  reflexivity.
Qed.

Lemma theta_step_avx2_computes_witness :
  AVX2.theta_step_avx2 sample_state
  = (map (column_rows_1_4 sample_state) (seq 0 5),
     map (fun x => Z.lxor (column_rows_1_4 sample_state ((x + 4) mod 5))
                     (Spec.rotl (column_rows_1_4 sample_state ((x + 1) mod 5)) 1))
         (seq 0 5)).
Proof.
  apply (theta_step_avx2_computes sample_state).
  apply wf_state_by_check; reflexivity.
Defined.

(** X9: on a well-formed state [theta_step_avx512] fills [c[x]] with the
    XOR of the five lanes of column x and [d[x]] with
    c[(x+4) mod 5] XOR rotate-left(c[(x+1) mod 5], 1). *)
Theorem theta_step_avx512_computes (state : list Z) :
  wf_state state ->
  AVX512.theta_step_avx512 state
  = (map (Spec.C state) (seq 0 5), map (Spec.D state) (seq 0 5)).
Proof.
  intros Hwf.
  rewrite (surjective_pairing (AVX512.theta_step_avx512 state)).
  rewrite theta_step_avx512_columns, (theta_step_avx512_d state Hwf).
  reflexivity.
Qed.

Lemma theta_step_avx512_computes_witness :
  AVX512.theta_step_avx512 sample_state
  = (map (Spec.C sample_state) (seq 0 5), map (Spec.D sample_state) (seq 0 5)).
Proof.
  apply (theta_step_avx512_computes sample_state).
  apply wf_state_by_check; reflexivity.
Defined.

Lemma sample_state_wf : wf_state sample_state.
Proof. apply wf_state_by_check; reflexivity. Qed.

(** ** The THETA section of the AVX2 round *)

Lemma Round_theta_avx2_state (state : list Z) :
  length state = 25%nat ->
  fst (AVX2.Round_theta state)
  = firstn 16 state ++ skipn 16 (snd (AVX2.Round_theta state)).
Proof.
  intros H. unfold AVX2.Round_theta.
  destruct (AVX2.theta_step_avx2 state) as [c d]. cbn [fst snd].
  destruct_lanes state H. reflexivity.
Qed.

(** X10: the THETA section of the AVX2 round on a state of 25 lanes: the
    scratch array gets lane j XOR d[j mod 5] for every lane, the state
    array has only its lanes 16..24 updated when the section ends, and the
    section applied to its own result gives the state back. *)
Theorem Round_theta_avx2_is_involution (state : list Z) :
  length state = 25%nat ->
  snd (AVX2.Round_theta (snd (AVX2.Round_theta state))) = state /\
  snd (AVX2.Round_theta state)
  = map (fun j => Z.lxor (Mem.rd state j)
                    (Mem.rd (snd (AVX2.theta_step_avx2 state)) (j mod 5)))
        Spec.lanes /\
  fst (AVX2.Round_theta state)
  = firstn 16 state ++ skipn 16 (snd (AVX2.Round_theta state)).
Proof.
  intros H. split; [apply Round_theta_avx2_involutive; exact H |].
  split; [apply (Round_theta_avx2_apply state H) |].
  apply Round_theta_avx2_state. exact H.
Qed.

Lemma Round_theta_avx2_is_involution_witness :
  snd (AVX2.Round_theta (snd (AVX2.Round_theta sample_state))) = sample_state.
Proof.
  refine (proj1 (Round_theta_avx2_is_involution sample_state _)). reflexivity.
Defined.

(** ** The fused rho and pi section *)

(** X12: the fused RHO and PI section, for arrays of 25 lanes and a
    well-formed scratch array: lane j of the result is scratch lane
    [transpose j] rotated left by its [rhotates] offset; both files compute
    the same; the result does not depend on what the state array held. *)
Theorem fused_rho_pi_rotates_and_transposes (state state' temp : list Z) :
  length state = 25%nat -> length state' = 25%nat -> wf_state temp ->
  AVX2.Round_rho_pi state temp
  = map (fun j => Spec.rotl (Mem.rd temp (transpose j))
                    (Mem.rd AVX2.rhotates (transpose j))) Spec.lanes /\
  AVX512.Round_rho_pi state temp = AVX2.Round_rho_pi state temp /\
  AVX2.Round_rho_pi state' temp = AVX2.Round_rho_pi state temp.
Proof.
  intros Hs Hs' Ht.
  split; [| split; [reflexivity |]].
  - rewrite rho_pi_avx2_is_rho_then_transpose by (exact Hs || apply Ht).
    apply map_ext. intros j.
    apply rotl64_is_rotl;
      [apply wf_state_lanes; exact Ht | apply rhotates_range].
  - rewrite !rho_pi_avx2_is_rho_then_transpose by (assumption || apply Ht).
    reflexivity.
Qed.

Lemma fused_rho_pi_rotates_and_transposes_witness :
  AVX2.Round_rho_pi zero_state sample_state
  = map (fun j => Spec.rotl (Mem.rd sample_state (transpose j))
                    (Mem.rd AVX2.rhotates (transpose j))) Spec.lanes.
Proof.
  refine (proj1 (fused_rho_pi_rotates_and_transposes
                   zero_state zero_state sample_state _ _ sample_state_wf));
    reflexivity.
Defined.

(** ** Injectivity of the AVX2 entry points *)

Lemma skipn_round_constants_u64 :
  Forall Word64.is_u64 (skipn 12 AVX2.KeccakF1600RoundConstants).
Proof.
  cbn [skipn AVX2.KeccakF1600RoundConstants]. unfold Word64.is_u64.
  repeat (apply Forall_cons; [lia |]). apply Forall_nil.
Qed.

(** X1: on well-formed states the AVX2 round (for any 64-bit round
    constant), the AVX2 24-round entry point and the AVX2 12-round entry
    point are injective. *)
Theorem avx2_entry_points_injective (s s' : list Z) :
  wf_state s -> wf_state s' ->
  (AVX2.KeccakP1600_Permute_24rounds_avx2 s
     = AVX2.KeccakP1600_Permute_24rounds_avx2 s' -> s = s') /\
  (AVX2.KeccakP1600_Permute_12rounds_avx2 s
     = AVX2.KeccakP1600_Permute_12rounds_avx2 s' -> s = s') /\
  (forall rc, Word64.is_u64 rc ->
     AVX2.KeccakP1600_Round_avx2 s rc = AVX2.KeccakP1600_Round_avx2 s' rc ->
     s = s').
Proof.
  intros Hs Hs'. repeat split.
  - intros H.
    rewrite (Permute_24rounds_avx2_fold s), (Permute_24rounds_avx2_fold s') in H.
    exact (rounds_avx2_inj AVX2.KeccakF1600RoundConstants s s'
             round_constants_u64 Hs Hs' H).
  - intros H.
    rewrite (Permute_12rounds_avx2_fold s), (Permute_12rounds_avx2_fold s') in H.
    exact (rounds_avx2_inj (skipn 12 AVX2.KeccakF1600RoundConstants) s s'
             skipn_round_constants_u64 Hs Hs' H).
  - intros rc _ H. exact (Round_avx2_inj s s' rc Hs Hs' H).
Qed.

Lemma avx2_entry_points_injective_witness : sample_state = sample_state.
Proof.
  exact (proj1 (avx2_entry_points_injective sample_state sample_state
                  sample_state_wf sample_state_wf) eq_refl).
Defined.

(** ** The lanes stay 64-bit values *)

(** X2: the AVX2 round and both AVX2 entry points map a well-formed state
    (25 lanes below 2^64) to a well-formed state. *)
Theorem avx2_entry_points_keep_wf (s : list Z) :
  wf_state s ->
  wf_state (AVX2.KeccakP1600_Permute_24rounds_avx2 s) /\
  wf_state (AVX2.KeccakP1600_Permute_12rounds_avx2 s) /\
  (forall rc, Word64.is_u64 rc -> wf_state (AVX2.KeccakP1600_Round_avx2 s rc)).
Proof.
  intros Hs. repeat split.
  - rewrite (Permute_24rounds_avx2_fold s).
    apply rounds_avx2_wf; [exact round_constants_u64 | exact Hs].
  - rewrite (Permute_24rounds_avx2_fold s).
    apply rounds_avx2_wf; [exact round_constants_u64 | exact Hs].
  - rewrite (Permute_12rounds_avx2_fold s).
    apply rounds_avx2_wf; [exact skipn_round_constants_u64 | exact Hs].
  - rewrite (Permute_12rounds_avx2_fold s).
    apply rounds_avx2_wf; [exact skipn_round_constants_u64 | exact Hs].
  - apply Round_avx2_wf; assumption.
  - apply Round_avx2_wf; assumption.
Qed.

Lemma avx2_entry_points_keep_wf_witness :
  wf_state (AVX2.KeccakP1600_Permute_24rounds_avx2 sample_state).
Proof.
  exact (proj1 (avx2_entry_points_keep_wf sample_state sample_state_wf)).
Defined.

(** ** The AVX-512 round keeps the lanes 64-bit values *)

Lemma spec_C_u64 (state : list Z) (x : nat) :
  wf_state state -> Word64.is_u64 (Spec.C state x).
Proof.
  intros Hwf. unfold Spec.C.
  repeat apply lxor_u64; apply wf_state_lanes; exact Hwf.
Qed.

Lemma spec_D_u64 (state : list Z) (x : nat) :
  wf_state state -> Word64.is_u64 (Spec.D state x).
Proof.
  intros Hwf. unfold Spec.D.
  apply lxor_u64; [apply spec_C_u64; exact Hwf |].
  apply rotl_range; [apply spec_C_u64; exact Hwf | lia].
Qed.

Lemma Round_theta_avx512_wf (state : list Z) :
  wf_state state -> wf_state (snd (AVX512.Round_theta state)).
Proof.
  intros Hwf. rewrite Round_theta_avx512_lanes by apply Hwf.
  apply map_lanes_wf. intros j.
  apply lxor_u64; [apply wf_state_lanes; exact Hwf |].
  rewrite (theta_step_avx512_d state Hwf).
  apply rd_u64. apply Forall_forall. intros v Hv.
  apply in_map_iff in Hv. destruct Hv as [x [<- _]].
  apply spec_D_u64. exact Hwf.
Qed.

Lemma Round_theta_avx512_state_length (state : list Z) :
  length (fst (AVX512.Round_theta state)) = length state.
Proof.
  unfold AVX512.Round_theta.
  destruct (AVX512.theta_step_avx512 state) as [c d]. cbn [fst].
  unfold AVX512.APPLY_D. rewrite !wr_length. reflexivity.
Qed.

Lemma chi_process_row_avx512_wf (state : list Z) (b : nat) :
  wf_state state -> wf_state (AVX512.chi_process_row_avx512 state b).
Proof.
  intros Hwf.
  pose proof (wf_state_lanes state Hwf) as U.
  rewrite chi_process_row_avx512_writes. cbv zeta. split.
  - rewrite !wr_length. apply Hwf.
  - repeat (apply wr_u64;
            [| apply lxor_u64;
               [apply U | apply land_u64; [apply not_u64 | apply U]]]);
      first [apply Hwf | apply U | exact zero_u64].
Qed.

Lemma Round_chi_avx512_wf (state : list Z) :
  wf_state state -> wf_state (AVX512.Round_chi state).
Proof.
  intros Hwf. unfold AVX512.Round_chi.
  repeat apply chi_process_row_avx512_wf. exact Hwf.
Qed.

Lemma Round_avx512_sections (state : list Z) (rc : Z) :
  AVX512.KeccakP1600_Round_avx512 state rc
  = AVX512.Round_iota
      (AVX512.Round_chi
         (AVX512.Round_rho_pi (fst (AVX512.Round_theta state))
                              (snd (AVX512.Round_theta state)))) rc.
Proof.
  unfold AVX512.KeccakP1600_Round_avx512.
  destruct (AVX512.Round_theta state) as [state' temp]. reflexivity.
Qed.

Lemma Round_iota_avx512_is_avx2 (state : list Z) (rc : Z) :
  AVX512.Round_iota state rc = AVX2.Round_iota state rc.
Proof. reflexivity. Qed.

Lemma Round_avx512_wf (state : list Z) (rc : Z) :
  wf_state state -> Word64.is_u64 rc ->
  wf_state (AVX512.KeccakP1600_Round_avx512 state rc).
Proof.
  intros Hs Hrc.
  rewrite Round_avx512_sections, Round_iota_avx512_is_avx2,
    rho_pi_avx512_is_avx2.
  apply Round_iota_avx2_wf; [| exact Hrc].
  apply Round_chi_avx512_wf.
  apply Round_rho_pi_avx2_wf;
    [rewrite Round_theta_avx512_state_length; apply Hs
    | apply Round_theta_avx512_wf; exact Hs].
Qed.

Lemma rounds_avx512_wf (rcs : list Z) (s : list Z) :
  Forall Word64.is_u64 rcs -> wf_state s ->
  wf_state (fold_left AVX512.KeccakP1600_Round_avx512 rcs s).
Proof.
  intros Hrcs. revert s.
  induction Hrcs as [| rc rcs Hrc _ IH]; intros s Hs.
  - exact Hs.
  - rewrite fold_left_step. apply IH. apply Round_avx512_wf; assumption.
Qed.

(** X3: the AVX-512 round and both AVX-512 entry points map a well-formed
    state (25 lanes below 2^64) to a well-formed state. *)
Theorem avx512_entry_points_keep_wf (s : list Z) :
  wf_state s ->
  wf_state (AVX512.KeccakP1600_Permute_24rounds_avx512 s) /\
  wf_state (AVX512.KeccakP1600_Permute_12rounds_avx512 s) /\
  (forall rc, Word64.is_u64 rc -> wf_state (AVX512.KeccakP1600_Round_avx512 s rc)).
Proof.
  intros Hs. split; [| split].
  - rewrite (Permute_24rounds_avx512_fold s).
    apply rounds_avx512_wf; [exact round_constants_u64 | exact Hs].
  - rewrite (Permute_12rounds_avx512_fold s).
    apply rounds_avx512_wf; [exact skipn_round_constants_u64 | exact Hs].
  - intros rc Hrc. apply Round_avx512_wf; assumption.
Qed.

Lemma avx512_entry_points_keep_wf_witness :
  wf_state (AVX512.KeccakP1600_Permute_24rounds_avx512 sample_state).
Proof.
  exact (proj1 (avx512_entry_points_keep_wf sample_state sample_state_wf)).
Defined.

(** ** The capability probes *)

Lemma land_pow2_eqb (a n : Z) :
  0 <= n -> (Z.land a (2 ^ n) =? 0) = negb (Z.testbit a n).
Proof.
  intros Hn. destruct (Z.testbit a n) eqn:E; cbn.
  - apply Z.eqb_neq. intros H.
    apply (f_equal (fun z => Z.testbit z n)) in H.
    rewrite Z.land_spec, E, Z.pow2_bits_true, Z.bits_0 in H by exact Hn.
    discriminate H.
  - apply Z.eqb_eq. apply Z.bits_inj'. intros i Hi.
    rewrite Z.land_spec, Z.bits_0, Z.pow2_bits_eqb by exact Hn.
    destruct (Z.eqb_spec n i) as [<- | _];
      [rewrite E; reflexivity | apply andb_false_r].
Qed.

(** X16: [supportsAVX2] reports bit 5 of EBX; [supportsAVX512] reports
    true exactly when bits 16, 17, 30 and 31 of EBX are all set; neither
    touches [permute_fn]. *)
Theorem probes_test_feature_bits (ebx : Z) (w : Dispatch.world) :
  snd (Dispatch.supportsAVX2 ebx w) = Z.testbit ebx 5 /\
  snd (Dispatch.supportsAVX512 ebx w)
    = Z.testbit ebx 16 && Z.testbit ebx 17 && Z.testbit ebx 30 && Z.testbit ebx 31 /\
  Dispatch.permute_fn (fst (Dispatch.supportsAVX2 ebx w)) = Dispatch.permute_fn w /\
  Dispatch.permute_fn (fst (Dispatch.supportsAVX512 ebx w)) = Dispatch.permute_fn w.
Proof.
  split; [| split; [| split; reflexivity]].
  - unfold Dispatch.supportsAVX2. cbn [snd].
    change (Z.shiftl 1 5) with (2 ^ 5).
    rewrite land_pow2_eqb by lia. apply negb_involutive.
  - unfold Dispatch.supportsAVX512. cbn [snd].
    change (Z.shiftl 1 16) with (2 ^ 16). change (Z.shiftl 1 17) with (2 ^ 17).
    change (Z.shiftl 1 30) with (2 ^ 30). change (Z.shiftl 1 31) with (2 ^ 31).
    set (mask := Z.lor (Z.lor (Z.lor (2 ^ 16) (2 ^ 17)) (2 ^ 30)) (2 ^ 31)).
    assert (M : forall i, 0 <= i ->
              Z.testbit mask i = (16 =? i) || (17 =? i) || (30 =? i) || (31 =? i)).
    { intros i Hi. unfold mask.
      rewrite !Z.lor_spec, !Z.pow2_bits_eqb by lia. reflexivity. }
    destruct (Z.testbit ebx 16) eqn:E16, (Z.testbit ebx 17) eqn:E17,
             (Z.testbit ebx 30) eqn:E30, (Z.testbit ebx 31) eqn:E31; cbn [andb];
      try (apply Z.eqb_neq; intros H;
           first [ apply (f_equal (fun z => Z.testbit z 16)) in H;
                   rewrite Z.land_spec, M, E16 in H by lia; discriminate H
                 | apply (f_equal (fun z => Z.testbit z 17)) in H;
                   rewrite Z.land_spec, M, E17 in H by lia; discriminate H
                 | apply (f_equal (fun z => Z.testbit z 30)) in H;
                   rewrite Z.land_spec, M, E30 in H by lia; discriminate H
                 | apply (f_equal (fun z => Z.testbit z 31)) in H;
                   rewrite Z.land_spec, M, E31 in H by lia; discriminate H ]).
    apply Z.eqb_eq. apply Z.bits_inj'. intros i Hi.
    rewrite Z.land_spec, M by exact Hi.
    destruct (Z.eqb_spec 16 i) as [<- | _]; [rewrite E16; reflexivity |].
    destruct (Z.eqb_spec 17 i) as [<- | _]; [rewrite E17; reflexivity |].
    destruct (Z.eqb_spec 30 i) as [<- | _]; [rewrite E30; reflexivity |].
    destruct (Z.eqb_spec 31 i) as [<- | _]; [rewrite E31; reflexivity |].
    apply andb_false_r.
Qed.

(** ** Rotations compose *)

(** X17: for a 64-bit [x] and amounts in 0..63, rotating by [a] and then
    by [b] is rotating by [(a + b) mod 64]; rotating by [a] and then by
    [(64 - a) mod 64] gives [x] back; rotation by [a] is injective. *)
Theorem rotl64_composes (x a b : Z) :
  0 <= x < 2 ^ 64 -> 0 <= a <= 63 -> 0 <= b <= 63 ->
  AVX2.rotl64 (AVX2.rotl64 x a) b = AVX2.rotl64 x ((a + b) mod 64) /\
  AVX2.rotl64 (AVX2.rotl64 x a) ((64 - a) mod 64) = x /\
  (forall y, 0 <= y < 2 ^ 64 -> AVX2.rotl64 x a = AVX2.rotl64 y a -> x = y).
Proof.
  intros Hx Ha Hb.
  assert (Comp : forall c, 0 <= c <= 63 ->
            AVX2.rotl64 (AVX2.rotl64 x a) c = AVX2.rotl64 x ((a + c) mod 64)).
  { intros c Hc.
    assert (Hm : 0 <= (a + c) mod 64 < 64) by (apply Z.mod_pos_bound; lia).
    assert (U1 : Word64.is_u64 (AVX2.rotl64 x a)) by (apply rotl64_u64; assumption).
    assert (U2 : Word64.is_u64 (AVX2.rotl64 (AVX2.rotl64 x a) c))
      by (apply rotl64_u64; assumption).
    assert (U3 : Word64.is_u64 (AVX2.rotl64 x ((a + c) mod 64)))
      by (apply rotl64_u64; [assumption | lia]).
    apply Z.bits_inj'. intros i Hi.
    destruct (Z_lt_le_dec i 64) as [Hlt | Hge].
    - rewrite (rotl64_is_rotl x a Hx Ha) in U1 |- *.
      rewrite (rotl64_is_rotl (Spec.rotl x a) c),
        (rotl64_is_rotl x ((a + c) mod 64)) by (assumption || lia).
      rewrite rotl_testbit by (assumption || lia).
      rewrite rotl_testbit by (assumption || lia || (apply Z.mod_pos_bound; lia)).
      rewrite rotl_testbit by (assumption || lia).
      f_equal.
      rewrite Zminus_mod_idemp_l, Zminus_mod_idemp_r. f_equal. lia.
    - rewrite !u64_testbit_high by assumption. reflexivity. }
  split; [apply Comp; exact Hb |].
  split.
  - assert (Hm : 0 <= (64 - a) mod 64 < 64) by (apply Z.mod_pos_bound; lia).
    rewrite Comp by lia.
    replace ((a + (64 - a) mod 64) mod 64) with 0; [reflexivity |].
    rewrite Zplus_mod_idemp_r. replace (a + (64 - a)) with 64 by lia. reflexivity.
  - intros y Hy H. apply (rotl64_inj x y a); assumption.
Qed.

Lemma rotl64_composes_witness :
  AVX2.rotl64 (AVX2.rotl64 0x8000000000000001 62) 3
  = AVX2.rotl64 0x8000000000000001 ((62 + 3) mod 64).
Proof.
  refine (proj1 (rotl64_composes 0x8000000000000001 62 3 _ _ _)); lia.
Defined.

(** ** The table [rot_pairs] *)

(** X18: every entry (l, r) of [rot_pairs] has l = rhotates[i] and
    r = (64 - l) mod 64, and [(x << l) | (x >> r)] is the rotate-left of a
    64-bit [x] by rhotates[i]. *)
Theorem rot_pairs_rotate_by_rhotates (i : nat) (x : Z) :
  (i < 25)%nat -> 0 <= x < 2 ^ 64 ->
  let '(l, r) := nth i AVX2.rot_pairs (0, 0) in
  l = Mem.rd AVX2.rhotates i /\
  r = (64 - l) mod 64 /\
  Z.lor (Word64.shl x l) (Word64.shr x r) = Spec.rotl x (Mem.rd AVX2.rhotates i).
Proof.
  intros Hi Hx.
  destruct i as [| i].
  { cbn [nth AVX2.rot_pairs AVX2.rhotates Mem.rd].
    split; [reflexivity | split; [reflexivity |]].
    rewrite rotl_0 by exact Hx.
    unfold Word64.shl, Word64.shr, Word64.mask64.
    rewrite Z.shiftl_0_r, Z.shiftr_0_r, Z.land_ones, Z.mod_small by lia.
    apply Z.lor_diag. }
  do 24 (destruct i as [| i];
         [cbn [nth AVX2.rot_pairs AVX2.rhotates Mem.rd];
          split; [reflexivity | split; [reflexivity |]];
          apply shl_shr_is_rotl; [exact Hx | lia] |]).
  lia.
Qed.

Lemma rot_pairs_rotate_by_rhotates_witness :
  let '(l, r) := nth 7 AVX2.rot_pairs (0, 0) in
  l = Mem.rd AVX2.rhotates 7 /\
  r = (64 - l) mod 64 /\
  Z.lor (Word64.shl 0x8000000000000001 l) (Word64.shr 0x8000000000000001 r)
  = Spec.rotl 0x8000000000000001 (Mem.rd AVX2.rhotates 7).
Proof.
  apply (rot_pairs_rotate_by_rhotates 7 0x8000000000000001); lia.
Defined.

(** ** The element extraction helpers *)

(** X19: [get_epi64] returns element [idx] of its vector for [idx] in
    0..3, whatever [extract_buffer] held, and leaves the vector in the
    buffer. *)
Theorem get_epi64_returns_the_element (extract_buffer a : list Z) (idx : nat) :
  length extract_buffer = 4%nat -> length a = 4%nat -> (idx < 4)%nat ->
  AVX2.get_epi64 extract_buffer a idx = (a, nth idx a 0).
Proof.
  intros Hb Ha Hi.
  do 4 (destruct extract_buffer as [| ? extract_buffer]; [discriminate Hb |]).
  destruct extract_buffer; [| discriminate Hb].
  do 4 (destruct a as [| ? a]; [discriminate Ha |]).
  destruct a; [| discriminate Ha].
  do 4 (destruct idx as [| idx]; [reflexivity |]). lia.
Qed.

Lemma get_epi64_returns_the_element_witness :
  AVX2.get_epi64 [9; 9; 9; 9] [1; 2; 3; 4] 2 = ([1; 2; 3; 4], 3).
Proof.
  apply (get_epi64_returns_the_element [9; 9; 9; 9] [1; 2; 3; 4] 2);
    (reflexivity || lia).
Defined.

(** X20: [extract_epi64] returns element [pos] of its vector for [pos]
    in 0..7, whatever [extract_buffer] held, and leaves the vector in the
    buffer. *)
Theorem extract_epi64_returns_the_element (extract_buffer vec : list Z) (pos : nat) :
  length extract_buffer = 8%nat -> length vec = 8%nat -> (pos < 8)%nat ->
  AVX512.extract_epi64 extract_buffer vec pos = (vec, nth pos vec 0).
Proof.
  intros Hb Hv Hp.
  do 8 (destruct extract_buffer as [| ? extract_buffer]; [discriminate Hb |]).
  destruct extract_buffer; [| discriminate Hb].
  do 8 (destruct vec as [| ? vec]; [discriminate Hv |]).
  destruct vec; [| discriminate Hv].
  do 8 (destruct pos as [| pos]; [reflexivity |]). lia.
Qed.

Lemma extract_epi64_returns_the_element_witness :
  AVX512.extract_epi64 [9; 9; 9; 9; 9; 9; 9; 9] [1; 2; 3; 4; 5; 6; 7; 8] 6
  = ([1; 2; 3; 4; 5; 6; 7; 8], 7).
Proof.
  apply (extract_epi64_returns_the_element
           [9; 9; 9; 9; 9; 9; 9; 9] [1; 2; 3; 4; 5; 6; 7; 8] 6);
    (reflexivity || lia).
Defined.

(** ** The THETA section of the AVX-512 round is injective *)

Lemma theta512_apply_twice (d s : list Z) :
  length s = 25%nat -> theta512_apply d (theta512_apply d s) = s.
Proof.
  intros H. destruct_lanes s H. unfold theta512_apply.
  cbn [map Spec.lanes seq Mem.rd nth avx512_d_columns].
  lanewise z_bitwise.
Qed.

(** The column sums after the misaligned XOR, from the column sums
    before it. *)
Lemma theta512_apply_columns (c0 c1 c2 c3 c4 : Z) (s : list Z) :
  length s = 25%nat ->
  map (Spec.C s) (seq 0 5) = [c0; c1; c2; c3; c4] ->
  map (Spec.C (theta512_apply (theta_d [c0; c1; c2; c3; c4]) s)) (seq 0 5)
  = [ Z.lxor (Z.lxor c0 c4) (AVX2.rotl64 c1 1);
      Z.lxor (Z.lxor c1 c2) (AVX2.rotl64 c4 1);
      Z.lxor (Z.lxor c2 c3) (AVX2.rotl64 c0 1);
      AVX2.rotl64 c0 1;
      AVX2.rotl64 c1 1 ].
Proof.
  intros H HC. destruct_lanes s H.
  cbn [map seq] in HC |- *. unfold Spec.C in HC |- *.
  cbn [Nat.add Mem.rd nth] in HC.
  injection HC as <- <- <- <- <-.
  unfold theta512_apply, theta_d.
  cbn [map Spec.lanes seq Mem.rd nth avx512_d_columns Nat.add].
  lanewise z_bitwise.
Qed.

Lemma lxor_cancel_l (a b c : Z) : Z.lxor c a = Z.lxor c b -> a = b.
Proof.
  intros H. apply (f_equal (Z.lxor c)) in H.
  rewrite <- !Z.lxor_assoc, Z.lxor_nilpotent, !Z.lxor_0_l in H. exact H.
Qed.

(** X11: the THETA section of the AVX-512 round is injective on
    well-formed states: two states with the same 25 lanes after theta are
    equal. *)
Theorem Round_theta_avx512_injective (s s' : list Z) :
  wf_state s -> wf_state s' ->
  snd (AVX512.Round_theta s) = snd (AVX512.Round_theta s') -> s = s'.
Proof.
  intros Hs Hs' H.
  set (cols := fun t => [Spec.C t 0; Spec.C t 1; Spec.C t 2; Spec.C t 3; Spec.C t 4]).
  assert (A : forall t, wf_state t ->
            snd (AVX512.Round_theta t) = theta512_apply (theta_d (cols t)) t).
  { intros t Ht. rewrite Round_theta_avx512_lanes by apply Ht.
    unfold theta512_apply.
    replace (snd (AVX512.theta_step_avx512 t)) with (theta_d (cols t));
      [reflexivity |].
    change (cols t) with (map (Spec.C t) (seq 0 5)).
    rewrite <- theta_step_avx512_columns. reflexivity. }
  rewrite (A s Hs), (A s' Hs') in H.
  assert (E : cols s = cols s').
  { pose proof (f_equal (fun t => map (Spec.C t) (seq 0 5)) H) as HC.
    cbv beta in HC. unfold cols in HC.
    rewrite (theta512_apply_columns _ _ _ _ _ s (proj1 Hs) eq_refl) in HC.
    rewrite (theta512_apply_columns _ _ _ _ _ s' (proj1 Hs') eq_refl) in HC.
    pose proof (f_equal (fun l => nth 0 l 0) HC) as E0.
    pose proof (f_equal (fun l => nth 1 l 0) HC) as E1.
    pose proof (f_equal (fun l => nth 2 l 0) HC) as E2.
    pose proof (f_equal (fun l => nth 3 l 0) HC) as E3.
    pose proof (f_equal (fun l => nth 4 l 0) HC) as E4.
    cbn [nth] in E0, E1, E2, E3, E4. clear HC.
    apply rotl64_inj in E3; [| apply spec_C_u64; assumption
                            | apply spec_C_u64; assumption | lia].
    apply rotl64_inj in E4; [| apply spec_C_u64; assumption
                            | apply spec_C_u64; assumption | lia].
    rewrite E3, E4 in E0. apply lxor_cancel_r, lxor_cancel_l in E0.
    rewrite E4, E0 in E1. apply lxor_cancel_r, lxor_cancel_l in E1.
    rewrite E1, E3 in E2. apply lxor_cancel_r, lxor_cancel_l in E2.
    unfold cols. congruence. }
  rewrite E in H.
  transitivity (theta512_apply (theta_d (cols s'))
                  (theta512_apply (theta_d (cols s')) s)).
  - symmetry. apply theta512_apply_twice. apply Hs.
  - rewrite H. apply theta512_apply_twice. apply Hs'.
Qed.

Lemma Round_theta_avx512_injective_witness : sample_state = sample_state.
Proof.
  exact (Round_theta_avx512_injective sample_state sample_state
           sample_state_wf sample_state_wf eq_refl).
Defined.

(** ** The CHI section of the AVX2 round *)

(** X14: the CHI section of the AVX2 round on well-formed states: every
    lane (x,y) becomes lane(x,y) XOR (NOT lane(x+1,y) AND lane(x+2,y)),
    indices mod 5, from the lanes before the section; the result is
    well-formed; the section is injective. *)
Theorem chi_section_avx2_is_chi (s s' : list Z) :
  wf_state s -> wf_state s' ->
  AVX2.Round_chi s = Spec.chi s /\
  wf_state (AVX2.Round_chi s) /\
  (AVX2.Round_chi s = AVX2.Round_chi s' -> s = s').
Proof.
  intros Hs Hs'.
  rewrite (chi_avx2_is_chi s (proj1 Hs)), (chi_avx2_is_chi s' (proj1 Hs')).
  split; [reflexivity |].
  split; [apply chi_wf; exact Hs |].
  intros H. apply chi_inj; assumption.
Qed.

Lemma chi_section_avx2_is_chi_witness :
  AVX2.Round_chi sample_state = Spec.chi sample_state.
Proof.
  exact (proj1 (chi_section_avx2_is_chi sample_state sample_state
                  sample_state_wf sample_state_wf)).
Defined.
